(** * Ali-price-ripl: link extraction, signed API client, reply text and
      usage telemetry

    A shallow embedding of [bot/utils.py], [bot/aliexpress.py],
    [bot/handlers.py] and [bot/analytics.py], with the properties of the
    specification stated over it.

    Conventions.
    - A Python [str] is a Rocq [string], one [ascii] per character: the
      character with the code point of that number.  The embedding covers
      the strings of code points below 256, and is exact on them but for
      the percent escapes named below; URLs, parameter names and digests
      are ASCII.  The classes [\w], [\d] and [\s] of the patterns are
      those of Python on these code points (with [\w] the letters, digits
      and numerals of Latin-1, with [\s] the next-line and the no-break
      space).  Text with a code point from 256 on is not represented.
      Two things differ on text that is not ASCII: a percent escape of a
      byte from 128 up is decoded to the character of that code, where
      [urllib] decodes UTF-8 sequences; and the Unicode normalisation
      check that [urlsplit] runs on a non-ASCII host is not modelled.
      Decorations of the reply text that are not ASCII are written with
      their UTF-8 bytes.
    - An exception that the source catches is a [None]; the comment at each
      place names the exception.
    - [time.time()], the HTTP exchange and the room that the stack of the
      interpreter has for nested calls are inputs of the functions that
      use them. *)

From Stdlib Require Import Ascii String ZArith QArith Lqa Floats DecimalString.
From stdpp Require Import gmap strings list fin_maps sorting.

Local Open Scope string_scope.

(** ** Python string operations *)

Module Str.

Definition len (s : string) : nat := String.length s.

(** [c * 1] as a string. *)
Definition chr (c : ascii) : string := String c EmptyString.

Definition code (c : ascii) : N := N_of_ascii c.

Definition in_range (lo hi : N) (c : ascii) : bool :=
  ((lo <=? code c) && (code c <=? hi))%N.

Definition is_ascii (c : ascii) : bool := (code c <? 128)%N.
Definition is_upper (c : ascii) : bool := in_range 65 90 c.
Definition is_lower (c : ascii) : bool := in_range 97 122 c.
Definition is_alpha (c : ascii) : bool := is_upper c || is_lower c.
Definition is_digit (c : ascii) : bool := in_range 48 57 c.

Definition lower_char (c : ascii) : ascii :=
  if is_upper c then ascii_of_N (code c + 32) else c.
Definition upper_char (c : ascii) : ascii :=
  if is_lower c then ascii_of_N (code c - 32) else c.

Fixpoint map (f : ascii -> ascii) (s : string) : string :=
  match s with
  | EmptyString => EmptyString
  | String c t => String (f c) (map f t)
  end.

(** [s.lower()], [s.upper()] of an ASCII string *)
Definition lower : string -> string := map lower_char.
Definition upper : string -> string := map upper_char.

Fixpoint all (p : ascii -> bool) (s : string) : bool :=
  match s with
  | EmptyString => true
  | String c t => p c && all p t
  end.

Fixpoint any (p : ascii -> bool) (s : string) : bool :=
  match s with
  | EmptyString => false
  | String c t => p c || any p t
  end.

(** [c in s] for a character [c] *)
Definition has (c : ascii) (s : string) : bool := any (Ascii.eqb c) s.

(** [sub in s] *)
Fixpoint contains (sub s : string) : bool :=
  String.prefix sub s ||
  match s with
  | EmptyString => false
  | String _ t => contains sub t
  end.

(** [s.replace(c, "")] *)
Fixpoint remove (p : ascii -> bool) (s : string) : string :=
  match s with
  | EmptyString => EmptyString
  | String c t => if p c then remove p t else String c (remove p t)
  end.

(** [s.lstrip(chars)], the set [chars] given as a predicate *)
Fixpoint lstrip (p : ascii -> bool) (s : string) : string :=
  match s with
  | EmptyString => EmptyString
  | String c t => if p c then lstrip p t else s
  end.

(** [s.rstrip(chars)] *)
Fixpoint rstrip (p : ascii -> bool) (s : string) : string :=
  match s with
  | EmptyString => EmptyString
  | String c t =>
      match rstrip p t with
      | EmptyString => if p c then EmptyString else chr c
      | r => String c r
      end
  end.

(** [s.strip(chars)] *)
Definition strip (p : ascii -> bool) (s : string) : string :=
  rstrip p (lstrip p s).

(** [s.partition(c)] at the first [c]: [Some (before, after)], or [None]
    when [c] does not occur in [s] ([s.find(c) < 0]). *)
Fixpoint cut (c : ascii) (s : string) : option (string * string) :=
  match s with
  | EmptyString => None
  | String a t =>
      if Ascii.eqb a c then Some (EmptyString, t)
      else match cut c t with
           | Some (l, r) => Some (String a l, r)
           | None => None
           end
  end.

(** [(s[:i], s[i:])] for [i = s.rfind(c)], [None] when [c] does not occur. *)
Fixpoint rcut (c : ascii) (s : string) : option (string * string) :=
  match s with
  | EmptyString => None
  | String a t =>
      match rcut c t with
      | Some (l, r) => Some (String a l, r)
      | None => if Ascii.eqb a c then Some (EmptyString, s) else None
      end
  end.

(** [(s[:i], s[i:])] for the first [i] with [p s[i]], [(s, "")] if none. *)
Fixpoint span_until (p : ascii -> bool) (s : string) : string * string :=
  match s with
  | EmptyString => (EmptyString, EmptyString)
  | String a t =>
      if p a then (EmptyString, s)
      else let '(l, r) := span_until p t in (String a l, r)
  end.

(** [s.split(sep)] for a non-empty [sep]: the pieces between the
    occurrences of [sep], found left to right without overlap.  [skip]
    counts the characters of an occurrence still to pass over, [cur] is
    the piece being read. *)
Fixpoint split_go (sep : string) (skip : nat) (cur s : string) : list string :=
  match s with
  | EmptyString => [cur]
  | String c t =>
      match skip with
      | S k => split_go sep k cur t
      | O =>
          if String.prefix sep s
          then cur :: split_go sep (len sep - 1) EmptyString t
          else split_go sep 0 (cur +:+ chr c) t
      end
  end.

Definition split (sep s : string) : list string := split_go sep 0 EmptyString s.

(** [s.endswith(suffix)] *)
Definition endswith (suffix s : string) : bool :=
  (len suffix <=? len s)%nat &&
  String.eqb (String.substring (len s - len suffix) (len suffix) s) suffix.

(** [s.replace(a, b)] for characters [a], [b] *)
Definition replace_char (a b : ascii) : string -> string :=
  map (fun c => if Ascii.eqb c a then b else c).

End Str.

(** ** The parts of [urllib.parse] that [extract_product_id] calls

    Written after [urllib/parse.py] of CPython 3.11 and 3.12.  One step
    is left out: a host in balanced brackets is taken as it is, where
    [urlsplit] (from CPython 3.11.4 on) checks that it is an IP literal
    and raises [ValueError] if not.  No link below has a bracket. *)

Module UrlLib.

Record ParseResult := {
  scheme : string;
  netloc : string;
  path : string;
  params : string;
  query : string;
  fragment : string
}.

(** [_WHATWG_C0_CONTROL_OR_SPACE] *)
Definition c0_control_or_space (c : ascii) : bool := (Str.code c <=? 32)%N.

(** [_UNSAFE_URL_BYTES_TO_REMOVE = ['\t', '\r', '\n']] *)
Definition unsafe_url_byte (c : ascii) : bool :=
  (Str.code c =? 9)%N || (Str.code c =? 13)%N || (Str.code c =? 10)%N.

(** [scheme_chars]: letters, digits and [+-.] *)
Definition scheme_char (c : ascii) : bool :=
  Str.is_alpha c || Str.is_digit c || Str.has c "+-.".

(** The scheme step of [urlsplit]: [i = url.find(':')], and when [i > 0],
    [url[0]] is an ASCII letter and [url[:i]] has scheme characters only,
    the scheme is split off and lower-cased. *)
Definition split_scheme (url : string) : string * string :=
  match Str.cut ":" url with
  | Some (String c0 _ as pre, post) =>
      if Str.is_ascii c0 && Str.is_alpha c0 && Str.all scheme_char pre
      then (Str.lower pre, post)
      else (EmptyString, url)
  | _ => (EmptyString, url)
  end.

(** [_splitnetloc(url, 2)] for a [url] that starts with [//], given
    without these two characters. *)
Definition splitnetloc (rest : string) : string * string :=
  Str.span_until (fun c => Str.has c "/?#") rest.

(** [urlsplit(url)]; [None] is the [ValueError] of an unbalanced bracket
    in the host. *)
Definition urlsplit (url : string) : option ParseResult :=
  let url := Str.lstrip c0_control_or_space url in
  let url := Str.remove unsafe_url_byte url in
  let '(scheme, url) := split_scheme url in
  let '(netloc, url) :=
    match url with
    | String "/" (String "/" rest) => splitnetloc rest
    | _ => (EmptyString, url)
    end in
  if xorb (Str.has "[" netloc) (Str.has "]" netloc) then None
  else
    let '(url, fragment) :=
      match Str.cut "#" url with
      | Some (l, r) => (l, r)
      | None => (url, EmptyString)
      end in
    let '(url, query) :=
      match Str.cut "?" url with
      | Some (l, r) => (l, r)
      | None => (url, EmptyString)
      end in
    Some {| scheme := scheme; netloc := netloc; path := url;
            params := EmptyString; query := query; fragment := fragment |}.

Definition uses_params : list string :=
  [""; "ftp"; "hdl"; "prospero"; "http"; "imap"; "https"; "shttp"; "rtsp";
   "rtspu"; "sip"; "sips"; "mms"; "sftp"; "tel"].

(** [_splitparams(url)] for a [url] that contains [;] *)
Definition splitparams (url : string) : string * string :=
  match Str.rcut "/" url with
  | Some (head, tail) =>
      match Str.cut ";" tail with
      | Some (l, r) => (head +:+ l, r)
      | None => (url, EmptyString)
      end
  | None =>
      match Str.cut ";" url with
      | Some (l, r) => (l, r)
      | None => (url, EmptyString)
      end
  end.

(** [urlparse(url)] *)
Definition urlparse (url : string) : option ParseResult :=
  match urlsplit url with
  | None => None
  | Some r =>
      if bool_decide (scheme r ∈ uses_params) && Str.has ";" (path r)
      then let '(url, params) := splitparams (path r) in
           Some {| scheme := scheme r; netloc := netloc r; path := url;
                   params := params; query := query r;
                   fragment := fragment r |}
      else Some r
  end.

Definition hex_digit (c : ascii) : option N :=
  if Str.is_digit c then Some (Str.code c - 48)%N
  else if Str.in_range 65 70 c then Some (Str.code c - 55)%N
  else if Str.in_range 97 102 c then Some (Str.code c - 87)%N
  else None.

(** [_hextobyte[a + b]], [None] for the [KeyError] *)
Definition hextobyte (a b : ascii) : option ascii :=
  match hex_digit a, hex_digit b with
  | Some x, Some y => Some (ascii_of_N (16 * x + y))
  | _, _ => None
  end.

(** [unquote(s)]: every [%xx] with two hexadecimal digits becomes the
    character of that code; any other [%] stays. *)
Fixpoint unquote (s : string) : string :=
  match s with
  | EmptyString => EmptyString
  | String c t =>
      if Ascii.eqb c "%" then
        match t with
        | String a (String b rest) =>
            match hextobyte a b with
            | Some x => String x (unquote rest)
            | None => String c (unquote t)
            end
        | _ => String c (unquote t)
        end
      else String c (unquote t)
  end.

(** One turn of the loop of [parse_qsl] (with [keep_blank_values] and
    [strict_parsing] off): the pair a field contributes, if any. *)
Definition parse_field (name_value : string) : option (string * string) :=
  match name_value with
  | EmptyString => None
  | _ =>
      match Str.cut "=" name_value with
      | None => None
      | Some (_, EmptyString) => None
      | Some (n, v) =>
          Some (unquote (Str.replace_char "+" " " n),
                unquote (Str.replace_char "+" " " v))
      end
  end.

(** [parse_qsl(qs)] *)
Definition parse_qsl (qs : string) : list (string * string) :=
  let query_args :=
    match qs with EmptyString => [] | _ => Str.split "&" qs end in
  omap parse_field query_args.

(** [parse_qs(qs)]: the values of each name, in their order in [qs] *)
Definition parse_qs (qs : string) : gmap string (list string) :=
  foldl (fun parsed_result '(name, value) =>
           match parsed_result !! name with
           | Some values => <[name := (values ++ [value])%list]> parsed_result
           | None => <[name := [value]]> parsed_result
           end)
        ∅ (parse_qsl qs).

End UrlLib.

(** ** [bot/utils.py]: the product identifier of a link *)

Import UrlLib.

(** What one activation of [extract_product_id] does: return, or call
    itself on the embedded target and return what that call returns. *)
Inductive activation :=
| Return (product_id : option string)
| Recurse (target_url : string).

(** The body of [extract_product_id(link)].  [IndexError] of
    [split('/item/')[1]] and [ValueError] of [urlparse] end in the
    [except Exception] clause, which returns [None]. *)
Definition extract_product_id_body (link : string) : activation :=
  match urlparse link with
  | None => Return None
  | Some parsed_url =>
      if Str.contains "item" (path parsed_url) then
        match Str.split "/item/" (path parsed_url) !! 1%nat with
        | Some after => Return (head (Str.split "." after))
        | None => Return None
        end
      else if String.eqb (netloc parsed_url) "s.click.aliexpress.com" then
        let query_params := parse_qs (query parsed_url) in
        match query_params !! "dl_target_url" with
        | Some (target_url :: _) => Recurse target_url
        | _ => Return None
        end
      else if (3 <=? length (Str.split "/" (path parsed_url)))%nat then
        let segments := Str.split "/" (Str.strip (Ascii.eqb "/") (path parsed_url)) in
        match segments !! 1%nat with
        | Some second =>
            if Str.endswith ".html" second
            then Return (head (Str.split "." second))
            else Return None
        | None => Return None
        end
      else Return None
  end.

(** [extract_product_id(link)], called when the stack of the interpreter
    has room for [room] nested activations of the function.  (The
    recursion limit of CPython is 1000 frames unless it is set, the
    repository does not set it; the frames below the call and those that
    an activation needs for what it calls take their share.  The first
    activation is taken to have its room: the handlers are called near the
    bottom of the stack.)  An activation whose nested call finds no room
    gets [RecursionError], which its [except Exception] clause catches:
    it returns [None], and each activation above returns what its nested
    call returned. *)
Fixpoint extract_product_id (room : nat) (link : string) : option string :=
  match extract_product_id_body link with
  | Return product_id => product_id
  | Recurse target_url =>
      match room with
      | O => None
      | S room' => extract_product_id room' target_url
      end
  end.

(** The number of nested calls that [extract_product_id(link)] makes. *)
Fixpoint nested_calls (room : nat) (link : string) : nat :=
  match extract_product_id_body link with
  | Return _ => 0
  | Recurse target_url =>
      match room with
      | O => 0
      | S room' => S (nested_calls room' target_url)
      end
  end.

(** The nested calls that [link] takes when the stack has room for them:
    each is on a shorter string, so that there are no more than [link]
    has characters. *)
Definition redirect_depth (link : string) : nat :=
  nested_calls (Str.len link) link.

(** Sample links: a redirect link around a target, [n] redirect links
    wrapped around a target, an item link, and six redirect links wrapped
    around it. *)
Definition redirect_to (target_url : string) : string :=
  "https://s.click.aliexpress.com/e/_abc?dl_target_url=" +:+ target_url.


Definition item_link : string := "https://www.aliexpress.com/item/1234567890.html".



(** ** The part of [re] that the link patterns use *)

Module Re.

(** Patterns: the constructs that occur in [ALIEXPRESS_LINK_PATTERNS]. *)
Inductive regex :=
| Eps                                (* the empty pattern *)
| Chr (c : ascii)                    (* a literal character *)
| Class (p : ascii -> bool)          (* a character class *)
| Cat (r1 r2 : regex)                (* r1 r2 *)
| Alt (r1 r2 : regex)                (* r1|r2 *)
| Opt (r : regex)                    (* (?:r)? *)
| Many1 (p : ascii -> bool).         (* [class]+ *)

(** A literal string. *)
Fixpoint lit (s : string) : regex :=
  match s with
  | EmptyString => Eps
  | String c t => Cat (Chr c) (lit t)
  end.

(** The greedy loop of [[class]+] after its first character: as many
    characters of the class as there are, then giving them back one by
    one while the rest of the pattern, [k], fails. *)
Fixpoint many {A} (p : ascii -> bool) (s : string)
         (k : string -> option A) : option A :=
  match s with
  | String a t =>
      if p a then
        match many p t k with
        | Some x => Some x
        | None => k s
        end
      else k s
  | EmptyString => k s
  end.

(** The backtracking matcher: [run r s k] matches [r] at the start of
    [s] and hands the rest of [s] to [k]; alternatives are tried in the
    order of the pattern, the first success is the result. *)
Fixpoint run {A} (r : regex) (s : string) (k : string -> option A) : option A :=
  match r with
  | Eps => k s
  | Chr c =>
      match s with
      | String a t => if Ascii.eqb a c then k t else None
      | EmptyString => None
      end
  | Class p =>
      match s with
      | String a t => if p a then k t else None
      | EmptyString => None
      end
  | Cat r1 r2 => run r1 s (fun t => run r2 t k)
  | Alt r1 r2 =>
      match run r1 s k with
      | Some x => Some x
      | None => run r2 s k
      end
  | Opt r1 =>
      match run r1 s k with
      | Some x => Some x
      | None => k s
      end
  | Many1 p =>
      match s with
      | String a t => if p a then many p t k else None
      | EmptyString => None
      end
  end.

(** [re.match(r, s)]: the matched text ([group(0)]), [None] for no match. *)
Definition re_match (r : regex) (s : string) : option string :=
  run r s (fun rest => Some (String.substring 0 (Str.len s - Str.len rest) s)).

(** [re.findall(r, text)] for a pattern without capturing groups: the
    matches from left to right, each search starting where the last
    match ended.  [skip] counts the characters of the last match still
    to pass over.  (Exact for patterns that match no empty string.) *)
Fixpoint findall_go (r : regex) (skip : nat) (text : string) : list string :=
  match skip, text with
  | S k, String _ t => findall_go r k t
  | S _, EmptyString => []
  | O, _ =>
      match re_match r text with
      | Some m =>
          m :: match text with
               | String _ t => findall_go r (Str.len m - 1) t
               | EmptyString => []
               end
      | None =>
          match text with
          | String _ t => findall_go r 0 t
          | EmptyString => []
          end
      end
  end.

Definition findall (r : regex) (text : string) : list string :=
  findall_go r 0 text.

(** The strings that a pattern denotes. *)
Inductive matches : regex -> string -> Prop :=
| m_eps : matches Eps EmptyString
| m_chr c : matches (Chr c) (Str.chr c)
| m_class (p : ascii -> bool) c : p c = true -> matches (Class p) (Str.chr c)
| m_cat r1 r2 s1 s2 :
    matches r1 s1 -> matches r2 s2 -> matches (Cat r1 r2) (s1 +:+ s2)
| m_alt_l r1 r2 s : matches r1 s -> matches (Alt r1 r2) s
| m_alt_r r1 r2 s : matches r2 s -> matches (Alt r1 r2) s
| m_opt_none r : matches (Opt r) EmptyString
| m_opt_some r s : matches r s -> matches (Opt r) s
| m_many1 (p : ascii -> bool) c s :
    p c = true -> Str.all p s = true -> matches (Many1 p) (String c s).

(** [\d], [\w], [\s] and [[a-z]], as [re] takes them in a [str] pattern,
    on the characters with a code point below 256: the decimal digits
    are [0-9]; the word characters are the alphanumeric ones
    ([str.isalnum]) and the underscore; the white space is what
    [str.isspace] says. *)
Definition digit (c : ascii) : bool := Str.is_digit c.

(** The alphanumeric characters from 128 to 255: the ordinal indicators,
    the superscript digits, the micro sign, the fractions, and the
    letters, which leaves out the multiplication and the division sign. *)
Definition latin1_alnum (c : ascii) : bool :=
  (Str.code c =? 170)%N || Str.in_range 178 179 c || (Str.code c =? 181)%N ||
  Str.in_range 185 186 c || Str.in_range 188 190 c ||
  Str.in_range 192 214 c || Str.in_range 216 246 c || Str.in_range 248 255 c.

Definition word (c : ascii) : bool :=
  Str.is_alpha c || Str.is_digit c || Ascii.eqb c "_" || latin1_alnum c.
Definition space (c : ascii) : bool :=
  Str.in_range 9 13 c || Str.in_range 28 32 c ||
  (Str.code c =? 133)%N || (Str.code c =? 160)%N.
Definition lower_letter (c : ascii) : bool := Str.is_lower c.

End Re.

(** ** [bot/utils.py]: finding and checking links *)

Import Re.

(** [https?://] *)
Definition http_s : regex := Cat (lit "http") (Cat (Opt (Chr "s")) (lit "://")).

(** [(?:www\.)?(?:aliexpress\.com|(?:[a-z]{2}\.)?aliexpress\.com)] *)
Definition aliexpress_com : regex :=
  Cat (Opt (lit "www."))
      (Alt (lit "aliexpress.com")
           (Cat (Opt (Cat (Class lower_letter) (Cat (Class lower_letter) (Chr "."))))
                (lit "aliexpress.com"))).

(** [/item/[\d\w]+\.html] *)
Definition item_html : regex :=
  Cat (lit "/item/") (Cat (Many1 (fun c => digit c || word c)) (lit ".html")).

Definition ALIEXPRESS_LINK_PATTERNS : list regex :=
  [ Cat http_s (Cat aliexpress_com item_html);
    Cat http_s (Cat aliexpress_com
      (Cat (Chr "/") (Cat (Many1 digit) (Cat (Chr "/") (Cat (Many1 digit) (lit ".html"))))));
    Cat http_s (Cat (Opt (lit "s.")) (Cat (lit "click.aliexpress.com/")
      (Many1 (fun c => negb (space c)))));
    Cat http_s (Cat (Opt (lit "www.")) (Cat (lit "aliexpress.ru") item_html)) ].

(** [extract_aliexpress_links(text)]; [text] is [None] for a message
    without text. *)
Definition extract_aliexpress_links (text : option string) : list string :=
  match text with
  | None | Some EmptyString => []
  | Some text =>
      foldl (fun links pattern => (links ++ findall pattern text)%list)
            [] ALIEXPRESS_LINK_PATTERNS
  end.

(** [is_valid_aliexpress_link(link)] *)
Definition is_valid_aliexpress_link (link : string) : bool :=
  existsb (fun pattern => bool_decide (is_Some (re_match pattern link)))
          ALIEXPRESS_LINK_PATTERNS.

(** [bot/handlers.py], [process_message]: what becomes of a message after
    its links were extracted. *)
Inductive message_outcome :=
| NoLinkFound                 (* the reply that no link was found *)
| NoValidLink                 (* the reply of the [else] of the loop *)
| ProcessLink (link : string) (* [process_aliexpress_link(message, link)] *).

Definition process_message_links (links : list string) : message_outcome :=
  match links with
  | [] => NoLinkFound
  | _ =>
      match List.find is_valid_aliexpress_link links with
      | Some link => ProcessLink link
      | None => NoValidLink
      end
  end.

Definition process_message (text : option string) : message_outcome :=
  process_message_links (extract_aliexpress_links text).

(** ** JSON values, as [json.loads] and [response.json()] return them *)

#[warnings="-register-all"]
Inductive json :=
| JNull
| JBool (b : bool)
| JInt (z : Z)
| JFloat (x : float)
| JStr (s : string)
| JList (l : list json)
| JDict (d : list (string * json)).

Module Py.

(** [d[key]] in an association list of unique keys *)
Fixpoint assoc (key : string) (d : list (string * json)) : option json :=
  match d with
  | [] => None
  | (k, v) :: d' => if String.eqb k key then Some v else assoc key d'
  end.

Definition json_is_str (key : string) (v : json) : bool :=
  match v with
  | JStr s => String.eqb s key
  | _ => false
  end.

(** [bool(v)] *)
Definition truthy (v : json) : bool :=
  match v with
  | JNull => false
  | JBool b => b
  | JInt z => negb (z =? 0)%Z
  | JFloat x => negb (PrimFloat.eqb x 0%float)
  | JStr s => negb (String.eqb s "")
  | JList l => match l with [] => false | _ => true end
  | JDict d => match d with [] => false | _ => true end
  end.

(** [key in v] for a string [key]; [None] is the [TypeError] of a value
    that is no container. *)
Definition contains (key : string) (v : json) : option bool :=
  match v with
  | JDict d => Some (bool_decide (is_Some (assoc key d)))
  | JList l => Some (existsb (json_is_str key) l)
  | JStr s => Some (Str.contains key s)
  | _ => None
  end.

(** [v[key]] for a string [key]; [None] is the [KeyError] or [TypeError]. *)
Definition getitem (key : string) (v : json) : option json :=
  match v with
  | JDict d => assoc key d
  | _ => None
  end.

(** [v[0]]; [None] is the [IndexError], [KeyError] or [TypeError]. *)
Definition first (v : json) : option json :=
  match v with
  | JList (x :: _) => Some x
  | JStr (String c _) => Some (JStr (Str.chr c))
  | _ => None
  end.

(** [v.get(key, fallback)]; [None] is the [AttributeError] of a value that
    is no dict. *)
Definition get (key : string) (fallback : json) (v : json) : option json :=
  match v with
  | JDict d => Some (default fallback (assoc key d))
  | _ => None
  end.

(** [round(x)] of a float: the nearest integer, a tie goes to the even
    one; [None] is the error on an infinity or a NaN. *)
Definition round_half_even (m : positive) (e : Z) : Z :=
  if (0 <=? e)%Z then (Z.pos m * 2 ^ e)%Z
  else
    let d := (2 ^ (- e))%Z in
    let q := (Z.pos m / d)%Z in
    let r := (Z.pos m mod d)%Z in
    match (2 * r ?= d)%Z with
    | Lt => q
    | Gt => (q + 1)%Z
    | Eq => if Z.even q then q else (q + 1)%Z
    end.

Definition round (x : float) : option Z :=
  match Prim2SF x with
  | S754_zero _ => Some 0%Z
  | S754_finite s m e =>
      Some (if s then (- round_half_even m e)%Z else round_half_even m e)
  | _ => None
  end.

(** [str(n)] of an [int] *)
Definition str_int (n : Z) : string := NilZero.string_of_int (Z.to_int n).

End Py.

(** ** [bot/aliexpress.py] *)

Definition AE_AFFILIATE_LINK_GENERATE : string := "aliexpress.affiliate.link.generate".
Definition AE_DS_PRODUCT_GET : string := "aliexpress.ds.product.get".

(** [config.py] *)
Definition MAX_REQUESTS_PER_MINUTE : nat := 30.

(** *** The rate limiter

    Time is in seconds, as exact rationals.  [clock] is what [time.time()]
    returned last; each call of [respect_rate_limit] is told how long
    after that it starts ([idle]) and how much later than asked for its
    last [time.time()] comes ([late]: the overshoot of [asyncio.sleep] and
    the time the call itself takes). *)

Local Open Scope Q_scope.

Record limiter := {
  clock : Q;
  request_timestamps : list Q
}.

Record call_timing := {
  idle : Q;
  late : Q
}.

Definition Qltb (x y : Q) : bool := negb (Qle_bool y x).

(** [respect_rate_limit()] with the cap given; [None] is the [IndexError]
    of [request_timestamps[0]], which takes a cap of zero. *)
Definition respect_rate_limit_at (cap : nat) (t : call_timing) (st : limiter)
  : option limiter :=
  let current_time := clock st + idle t in
  let request_timestamps :=
    filter (fun ts => Is_true (Qltb (current_time - ts) 60)) (request_timestamps st) in
  woken ←
    (if (cap <=? length request_timestamps)%nat then
       oldest ← head request_timestamps;
       let wait_time := 60 - (current_time - oldest) in
       Some (if Qltb 0 wait_time then current_time + wait_time else current_time)
     else Some current_time);
  let stamp := woken + late t in
  Some {| clock := stamp;
          request_timestamps := (request_timestamps ++ [stamp])%list |}.

Definition respect_rate_limit : call_timing -> limiter -> option limiter :=
  respect_rate_limit_at MAX_REQUESTS_PER_MINUTE.

(** Calls one after the other: the limiter at the end and the timestamp
    that each call recorded. *)
Fixpoint respect_rate_limit_calls (cap : nat) (timings : list call_timing)
         (st : limiter) : option (limiter * list Q) :=
  match timings with
  | [] => Some (st, [])
  | t :: timings' =>
      st' ← respect_rate_limit_at cap t st;
      '(st'', stamps) ← respect_rate_limit_calls cap timings' st';
      Some (st'', clock st' :: stamps)
  end.

(** The limiter of a process that has made no request yet. *)
Definition limiter_at (start : Q) : limiter :=
  {| clock := start; request_timestamps := [] |}.

Local Close Scope Q_scope.

Section Client.

(** [config.py] reads them from the environment. *)
Variable ALIEXPRESS_APP_KEY : string.
Variable ALIEXPRESS_APP_SECRET : string.

(** [hashlib.md5(s.encode()).hexdigest()] *)
Variable md5_hexdigest : string -> string.

(** [json.loads(s)], [None] for its [JSONDecodeError] *)
Variable json_loads : string -> option json.

(** [float(s)] of a string and [float(n)] of an int, [None] for the
    [ValueError] and the [OverflowError] *)
Variable float_of_str : string -> option float.
Variable float_of_int : Z -> option float.

(** *** Signing *)

(** The order of [sorted] on the items of a dict: tuples compare by the
    key, and by the value when the keys are equal. *)
Definition item_le (a b : string * string) : Prop :=
  a.1 ≠ b.1 ∧ String.le a.1 b.1 ∨ a.1 = b.1 ∧ String.le a.2 b.2.

#[global] Instance item_le_dec : RelDecision item_le.
Proof. intros a b. unfold item_le. apply _. Defined.

(** [sorted(params.items())] *)
Definition sorted_items (params : gmap string string) : list (string * string) :=
  merge_sort item_le (map_to_list params).

(** [str(value)] of a string *)
Definition py_str (value : string) : string := value.

(** [generate_signature(params)] *)
Definition generate_signature (params : gmap string string) : string :=
  let sorted_params := sorted_items params in
  let concatenated := ALIEXPRESS_APP_SECRET in
  let concatenated :=
    foldl (fun concatenated '(key, value) => concatenated +:+ (key +:+ py_str value))
          concatenated sorted_params in
  let concatenated := concatenated +:+ ALIEXPRESS_APP_SECRET in
  Str.upper (md5_hexdigest concatenated).

(** The order of the keys alone. *)
Definition key_le (a b : string * string) : Prop := String.le a.1 b.1.

#[global] Instance key_le_dec : RelDecision key_le.
Proof. intros a b. unfold key_le. apply _. Defined.

(** Strictly ascending keys. *)
Definition key_lt (a b : string * string) : Prop :=
  String.le a.1 b.1 /\ a.1 <> b.1.

(** The items in ascending order of their keys. *)
Definition items_by_key (params : gmap string string) : list (string * string) :=
  merge_sort key_le (map_to_list params).

(** Each key followed by its value, nothing between them. *)
Fixpoint concat_pairs (items : list (string * string)) : string :=
  match items with
  | [] => ""
  | (key, value) :: items' => key +:+ value +:+ concat_pairs items'
  end.

(** The signature in the words of the specification: the secret, then
    each key with its value, the pairs in ascending order of the keys and
    nothing between them, then the secret again; of this the MD5 digest in
    hexadecimal, in upper case. *)
Definition signature_spec (params : gmap string string) : string :=
  Str.upper (md5_hexdigest
    (ALIEXPRESS_APP_SECRET +:+ concat_pairs (items_by_key params) +:+
     ALIEXPRESS_APP_SECRET)).

(** [common_params] of [make_api_request(method, params)]; [timestamp] is
    [str(int(time.time() * 1000))]. *)
Definition common_params (method timestamp : string) : gmap string string :=
  <["app_key" := ALIEXPRESS_APP_KEY]> (
  <["method" := method]> (
  <["format" := "json"]> (
  <["v" := "2.0"]> (
  <["sign_method" := "md5"]> (
  <["timestamp" := timestamp]> ∅))))).

(** The parameters that [make_api_request(method, params)] posts. *)
Definition request_params (method timestamp : string)
           (params : gmap string string) : gmap string string :=
  let all_params := params ∪ common_params method timestamp in
  <["sign" := generate_signature all_params]> all_params.

(** *** The exchange with the API *)

(** What [session.post] and [response.json()] come to. *)
Inductive http_exchange :=
| PostRaises
| Response (status : Z) (body : option json).

(** [make_api_request], from the response on: the decoded body, or [None].
    Before it posts, the function awaits [respect_rate_limit()], which has
    no part in the value returned. *)
Definition make_api_request (exchange : http_exchange) : option json :=
  match exchange with
  | PostRaises => None
  | Response status body =>
      if negb (status =? 200)%Z then None
      else
        response_data ← body;
        has_error ← Py.contains "error_response" response_data;
        if (has_error : bool) then None else Some response_data
  end.

(** [float(v)] *)
Definition to_float (v : json) : option float :=
  match v with
  | JFloat x => Some x
  | JInt z => float_of_int z
  | JBool b => Some (if b then 1%float else 0%float)
  | JStr s => float_of_str s
  | _ => None
  end.

(** The dict that [get_product_details] returns. *)
Record ProductDetails := {
  title : json;
  price : float;
  product_id : string;
  original_price : option float;
  rating : option float;
  shipping_cost : option float
}.

(** [float(product.get(key, {}).get('amount', 0))] *)
Definition amount (key : string) (product : json) : option float :=
  money ← Py.get key (JDict []) product;
  value ← Py.get "amount" (JInt 0) money;
  to_float value.

(** The [try] block of [get_product_details]; a [None] out of a Python
    operation is an exception, caught and turned into [return None]. *)
Definition parse_product_details (product_id : string) (response : json)
  : option ProductDetails :=
  let result_key := AE_DS_PRODUCT_GET +:+ "_response" in
  has_key ← Py.contains result_key response;
  if negb has_key then None else
  result ← Py.getitem result_key response;
  has_result ← Py.contains "result" result;
  if negb has_result then None else
  encoded ← Py.getitem "result" result;
  if negb (Py.truthy encoded) then None else
  products ← match encoded with JStr s => json_loads s | _ => None end;
  if negb (Py.truthy products) then None else
  has_products ← Py.contains "products" products;
  if negb has_products then None else
  product_list ← Py.getitem "products" products;
  if negb (Py.truthy product_list) then None else
  product ← Py.first product_list;
  price ← amount "target_app_sale_price" product;
  original_price ← amount "target_original_price" product;
  title ← Py.get "title" (JStr "Unknown Product") product;
  has_rating ← Py.contains "evaluation_rate" product;
  rating ←
    (if (has_rating : bool)
     then v ← Py.getitem "evaluation_rate" product; x ← to_float v; Some (Some x)
     else Some None);
  has_shipping ← Py.contains "logistics_cost" product;
  shipping_cost ←
    (if (has_shipping : bool)
     then x ← amount "logistics_cost" product; Some (Some x)
     else Some None);
  Some {| title := title;
          price := price;
          product_id := product_id;
          original_price :=
            if PrimFloat.ltb 0 original_price && PrimFloat.ltb price original_price
            then Some original_price else None;
          rating := rating;
          shipping_cost := shipping_cost |}.

(** [get_product_details(product_url)]; [room] is the room of the stack
    for the nested calls of [extract_product_id]. *)
Definition get_product_details (room : nat) (exchange : http_exchange)
           (product_url : string) : option ProductDetails :=
  match extract_product_id room product_url with
  | None | Some EmptyString => None
  | Some product_id =>
      match make_api_request exchange with
      | None => None
      | Some response =>
          if negb (Py.truthy response) then None
          else parse_product_details product_id response
      end
  end.

(** The [try] block of [convert_to_affiliate_link]: [Some] of what it
    returns, [None] for an exception. *)
Definition parse_affiliate_link (product_url : string) (response : json)
  : option json :=
  let result_key := AE_AFFILIATE_LINK_GENERATE +:+ "_response" in
  has_key ← Py.contains result_key response;
  if negb has_key then Some (JStr product_url) else
  result ← Py.getitem result_key response;
  has_result ← Py.contains "result" result;
  if negb has_result then Some (JStr product_url) else
  encoded ← Py.getitem "result" result;
  if negb (Py.truthy encoded) then Some (JStr product_url) else
  links ← match encoded with JStr s => json_loads s | _ => None end;
  if negb (Py.truthy links) then Some (JStr product_url) else
  has_links ← Py.contains "promotion_links" links;
  if negb has_links then Some (JStr product_url) else
  promotion_links ← Py.getitem "promotion_links" links;
  if negb (Py.truthy promotion_links) then Some (JStr product_url) else
  first_link ← Py.first promotion_links;
  promotion_link ← Py.get "promotion_link" JNull first_link;
  if Py.truthy promotion_link then Some promotion_link
  else Some (JStr product_url).

(** [convert_to_affiliate_link(product_url)] *)
Definition convert_to_affiliate_link (exchange : http_exchange)
           (product_url : string) : json :=
  match make_api_request exchange with
  | None => JStr product_url
  | Some response =>
      if negb (Py.truthy response) then JStr product_url
      else default (JStr product_url) (parse_affiliate_link product_url response)
  end.

End Client.

(** ** [bot/utils.py]: the title helper *)

(** [sanitize_product_title(title)]; [None] is a missing title. *)
Definition sanitize_product_title (title : option string) : string :=
  match title with
  | None | Some EmptyString => "Unknown Product"
  | Some title =>
      if (100 <? Str.len title)%nat
      then String.substring 0 97 title +:+ "..."
      else title
  end.

(** ** [bot/handlers.py]: the reply to a product link *)

Section Reply.

(** [str(x)] of a float, and of a JSON value that is no string *)
Variable float_str : float -> string.
Variable json_repr : json -> string.

(** What an f-string makes of a value. *)
Definition format_json (v : json) : string :=
  match v with
  | JStr s => s
  | _ => json_repr v
  end.

(** The line feed. *)
Definition LF : string := Str.chr (ascii_of_N 10).

(** [round(((original_price - price) / original_price) * 100)]; [None]
    is the error of [round] on an infinity or a NaN. *)
Definition discount_percent (price original_price : float) : option Z :=
  Py.round (((original_price - price) / original_price) * 100)%float.

(** [product.get('original_price') and
     product['original_price'] > product['price']] *)
Definition shows_discount (product : ProductDetails) : option float :=
  match original_price product with
  | Some original =>
      if negb (PrimFloat.eqb original 0%float) && PrimFloat.ltb (price product) original
      then Some original else None
  | None => None
  end.

(** [product.get('rating')], taken as a condition *)
Definition shows_rating (product : ProductDetails) : option float :=
  match rating product with
  | Some r => if negb (PrimFloat.eqb r 0%float) then Some r else None
  | None => None
  end.

Definition title_lines (product : ProductDetails) : string :=
  "🛍️ <b>" +:+ format_json (title product) +:+ "</b>" +:+ LF +:+ LF +:+
  "💰 <b>Current Price:</b> $" +:+ float_str (price product) +:+ LF.

Definition discount_line (original : float) (discount : Z) : string :=
  "🏷️ <b>Original Price:</b> $" +:+ float_str original +:+
  " (Save " +:+ Py.str_int discount +:+ "%)" +:+ LF.

Definition shipping_line (cost : float) : string :=
  if PrimFloat.ltb 0 cost
  then "🚚 <b>Shipping:</b> $" +:+ float_str cost +:+ LF
  else "🚚 <b>Shipping:</b> Free" +:+ LF.

Definition rating_line (r : float) : string :=
  "⭐ <b>Rating:</b> " +:+ float_str r +:+ "/5" +:+ LF.

Definition link_lines (affiliate_link : json) : string :=
  LF +:+ "🔗 <b>Affiliate Link:</b>" +:+ LF +:+ format_json affiliate_link.

(** The text that [process_aliexpress_link] builds from the product and
    the affiliate link; [None] is an exception (of [round]). *)
Definition response_text (product : ProductDetails) (affiliate_link : json)
  : option string :=
  let response := title_lines product in
  response ←
    match shows_discount product with
    | Some original =>
        discount ← discount_percent (price product) original;
        Some (response +:+ discount_line original discount)
    | None => Some response
    end;
  let response :=
    match shipping_cost product with
    | Some cost => response +:+ shipping_line cost
    | None => response
    end in
  let response :=
    match shows_rating product with
    | Some r => response +:+ rating_line r
    | None => response
    end in
  Some (response +:+ link_lines affiliate_link).

(** What [process_aliexpress_link] ends with: the message put in place of
    the processing note, and the action it logs. *)
Inductive link_reply :=
| ProductNotFound
| ProductReply (text : string) (button_url : json)
| SomethingWentWrong.

Definition logged_action (reply : link_reply) : string :=
  match reply with
  | ProductNotFound => "product_not_found"
  | ProductReply _ _ => "link_processed_successfully"
  | SomethingWentWrong => "error_processing_link"
  end.

(** [process_aliexpress_link(message, link)], given what the two requests
    to the API come to. *)
Definition process_aliexpress_link
           (product : option ProductDetails) (affiliate_link : json) : link_reply :=
  match product with
  | None => ProductNotFound
  | Some product =>
      match response_text product affiliate_link with
      | Some response => ProductReply response affiliate_link
      | None => SomethingWentWrong
      end
  end.

End Reply.

(** ** [bot/analytics.py] *)

Record UsageEvent := {
  user_id : Z;
  action_type : string;
  timestamp : Z
}.

(** The three files under [data/]. *)
Record analytics_files := {
  user_actions_json : option (list UsageEvent);
  action_counts_json : option (gmap string Z);
  user_last_active_json : option (gmap Z Z)
}.

(** The module's tables, and the files. *)
Record analytics := {
  user_actions : list UsageEvent;
  action_counts : gmap string Z;
  user_last_active : gmap Z Z;
  files : analytics_files
}.

Definition no_files : analytics_files :=
  {| user_actions_json := None; action_counts_json := None;
     user_last_active_json := None |}.

(** The tables of a process that found no file to load. *)
Definition empty_analytics : analytics :=
  {| user_actions := []; action_counts := ∅; user_last_active := ∅;
     files := no_files |}.

(** [save_analytics_to_file()]; [written] is the number of files written
    before a write raises (three when none does). *)
Definition save_analytics_to_file (written : nat) (st : analytics) : analytics :=
  let f := files st in
  let f := if (1 <=? written)%nat
           then {| user_actions_json := Some (user_actions st);
                   action_counts_json := action_counts_json f;
                   user_last_active_json := user_last_active_json f |}
           else f in
  let f := if (2 <=? written)%nat
           then {| user_actions_json := user_actions_json f;
                   action_counts_json := Some (action_counts st);
                   user_last_active_json := user_last_active_json f |}
           else f in
  let f := if (3 <=? written)%nat
           then {| user_actions_json := user_actions_json f;
                   action_counts_json := action_counts_json f;
                   user_last_active_json := Some (user_last_active st) |}
           else f in
  {| user_actions := user_actions st; action_counts := action_counts st;
     user_last_active := user_last_active st; files := f |}.

(** One call of [log_user_action], with what the world gives it:
    [int(time.time())] and the fate of the writes. *)
Record logging := {
  log_user : Z;
  log_action : string;
  log_time : Z;
  log_written : nat
}.

(** [log_user_action(user_id, action_type)] *)
Definition log_user_action (call : logging) (st : analytics) : analytics :=
  let timestamp := log_time call in
  let st :=
    {| user_actions :=
         (user_actions st ++
          [{| user_id := log_user call; action_type := log_action call;
              timestamp := timestamp |}])%list;
       action_counts :=
         <[log_action call :=
             (default 0 (action_counts st !! log_action call) + 1)%Z]>
           (action_counts st);
       user_last_active := <[log_user call := timestamp]> (user_last_active st);
       files := files st |} in
  if (length (user_actions st) mod 100 =? 0)%nat
  then save_analytics_to_file (log_written call) st
  else st.

(** Calls one after the other. *)
Definition log_user_actions (calls : list logging) (st : analytics) : analytics :=
  foldl (fun st call => log_user_action call st) st calls.

(** The events of an action type, and the events of a user. *)
Definition events_of_action (a : string) (events : list UsageEvent) : list UsageEvent :=
  filter (fun e => action_type e = a) events.
Definition events_of_user (u : Z) (events : list UsageEvent) : list UsageEvent :=
  filter (fun e => user_id e = u) events.

(** The tables agree with the log: a count is the number of the events of
    its action type, a last-active entry is the timestamp of the last
    event of its user. *)
Definition tables_agree (st : analytics) : Prop :=
  (forall a, default 0%Z (action_counts st !! a)
             = Z.of_nat (length (events_of_action a (user_actions st)))) /\
  (forall u, user_last_active st !! u
             = timestamp <$> last (events_of_user u (user_actions st))).

(** The event that a call appends. *)
Definition event_of (call : logging) : UsageEvent :=
  {| user_id := log_user call; action_type := log_action call;
     timestamp := log_time call |}.


(** A product with another rating, and with another title. *)
Definition with_rating (r : option float) (product : ProductDetails) : ProductDetails :=
  {| title := title product; price := price product;
     product_id := product_id product;
     original_price := original_price product;
     rating := r; shipping_cost := shipping_cost product |}.

Definition with_title (t : json) (product : ProductDetails) : ProductDetails :=
  {| title := t; price := price product;
     product_id := product_id product;
     original_price := original_price product;
     rating := rating product; shipping_cost := shipping_cost product |}.

(** The percentage of the specification, [100 * (original - price) /
    original], on exact numbers, and the integer nearest to an exact
    number, a tie going to the even one. *)
Definition exact_percent (price original : Q) : Q :=
  (100 * (original - price) / original)%Q.

Definition Qround_half_even (q : Q) : Z :=
  let d := Z.pos (Qden q) in
  let f := (Qnum q / d)%Z in
  let r := (Qnum q mod d)%Z in
  match (2 * r ?= d)%Z with
  | Lt => f
  | Gt => (f + 1)%Z
  | Eq => if Z.even f then f else (f + 1)%Z
  end.

(** A title of 120 characters. *)
Definition long_title : string :=
  "Wireless Bluetooth Headphones with Active Noise Cancelling, 40 Hours Playtime, Deep Bass, Foldable Over-Ear Headset, Blk".

(** ** What the rate limiter keeps true *)

(** Any [cap + 1] timestamps in a row span sixty seconds or more. *)
Definition stamps_spaced (cap : nat) (stamps : list Q) : Prop :=
  forall i first last,
    stamps !! i = Some first -> stamps !! (i + cap)%nat = Some last ->
    (first + 60 <= last)%Q.

(** [history] holds every timestamp recorded so far, oldest first.  The
    window of the limiter is its end; what went out of the window is
    sixty seconds old or older. *)
Record limiter_inv (cap : nat) (history : list Q) (st : limiter) : Prop := {
  inv_sorted : StronglySorted Qle history;
  inv_clock : forall a, a ∈ history -> (a <= clock st)%Q;
  inv_window : exists old,
      history = (old ++ request_timestamps st)%list /\
      forall a, a ∈ old -> (a + 60 <= clock st)%Q;
  inv_spaced : stamps_spaced cap history
}.

(** The timing of a call is sound when no time runs backwards. *)
Definition timing_ok (t : call_timing) : Prop := (0 <= idle t)%Q /\ (0 <= late t)%Q.

(** ** Shapes of product links *)

(** The characters of a host name: letters, digits and [.-]. *)
Definition host_char (c : ascii) : bool :=
  Str.is_alpha c || Str.is_digit c || Str.has c ".-".

(** The characters of the path of a product link: letters, digits, and
    [_], [/] and [.]. *)
Definition path_char (c : ascii) : bool :=
  Str.is_alpha c || Str.is_digit c || Str.has c "_/.".

(** The characters that [urlparse] leaves in a path: none of those that
    it removes, and none of [#], [?] and [;]. *)
Definition kept_in_path (c : ascii) : bool :=
  negb (unsafe_url_byte c || Str.has c "#?;").

(** A link with a scheme, a host and a path that starts with [/]. *)
Definition link_of (scheme host path : string) : string :=
  scheme +:+ "://" +:+ host +:+ String "/" path.

(** The third of the patterns: links of [click.aliexpress.com]. *)
Definition click_pattern : regex :=
  Cat http_s (Cat (Opt (lit "s.")) (Cat (lit "click.aliexpress.com/")
    (Many1 (fun c => negb (space c))))).

(** ** A sample exchange with the API

    The body of a response to [aliexpress.ds.product.get] for a phone
    case at 80 with the original price 100, the decoders given by their
    values on the strings that occur in it, and the product that
    [get_product_details] makes of it. *)
Definition sample_result : json :=
  JDict [("products",
          JList [JDict [("title", JStr "Phone case");
                        ("target_app_sale_price", JDict [("amount", JStr "80.00")]);
                        ("target_original_price", JDict [("amount", JStr "100.00")])]])].

Definition sample_exchange : http_exchange :=
  Response 200
    (Some (JDict [("aliexpress.ds.product.get_response",
                   JDict [("result", JStr "{...}")])])).

Definition sample_json_loads (s : string) : option json :=
  if String.eqb s "{...}" then Some sample_result else None.

Definition sample_float_of_str (s : string) : option float :=
  if String.eqb s "80.00" then Some 80%float
  else if String.eqb s "100.00" then Some 100%float
  else None.

Definition sample_product : ProductDetails :=
  {| title := JStr "Phone case"; price := 80%float;
     product_id := "1234567890"; original_price := Some 100%float;
     rating := None; shipping_cost := None |}.

(** The same product with an original price that is infinite. *)
Definition priceless_product : ProductDetails :=
  {| title := JStr "Phone case"; price := 80%float;
     product_id := "1234567890"; original_price := Some infinity;
     rating := None; shipping_cost := None |}.

(** ** Requests in a minute *)

(** The timestamps that lie in the sixty seconds from [from] on. *)
Definition dispatched_within (from : Q) (stamps : list Q) : list Q :=
  filter (fun ts => Is_true (Qle_bool from ts && Qltb ts (from + 60))) stamps.

(** ** [bot/analytics.py]: loading the tables, and the statistics *)

(** [load_analytics_from_file()]: each table is replaced by what its file
    holds, if the file is there.  [loaded] is the number of files dealt
    with before a read raises (three when none does); the tables of the
    files after that stay as they are.  A file holds what
    [save_analytics_to_file] wrote to it: [json.load] returns the events
    and the counts as they were saved, and the user identifiers, which
    JSON keeps as strings, are made integers again. *)
Definition load_analytics_from_file (loaded : nat) (st : analytics) : analytics :=
  let f := files st in
  {| user_actions :=
       if (1 <=? loaded)%nat
       then default (user_actions st) (user_actions_json f)
       else user_actions st;
     action_counts :=
       if (2 <=? loaded)%nat
       then default (action_counts st) (action_counts_json f)
       else action_counts st;
     user_last_active :=
       if (3 <=? loaded)%nat
       then default (user_last_active st) (user_last_active_json f)
       else user_last_active st;
     files := f |}.

(** The tables of a process that starts with the files [f]: the module
    sets them empty and calls [load_analytics_from_file()]. *)
Definition start_process (loaded : nat) (f : analytics_files) : analytics :=
  load_analytics_from_file loaded
    {| user_actions := []; action_counts := ∅; user_last_active := ∅;
       files := f |}.

(** The dict that [get_statistics] returns. *)
Record statistics := {
  total_users : Z;
  active_today : Z;
  active_this_week : Z;
  total_requests : Z;
  successful_conversions : Z;
  failed_conversions : Z
}.

(** [sum(1 for timestamp in user_last_active.values() if timestamp >= since)] *)
Definition active_since (since : Z) (last_active : gmap Z Z) : Z :=
  Z.of_nat (length (filter (fun ts => (since <= ts)%Z)
                           (snd <$> map_to_list last_active))).

(** [get_statistics()]; [now] is [int(time.time())]. *)
Definition get_statistics (now : Z) (st : analytics) : statistics :=
  let day_ago := (now - 86400)%Z in
  let week_ago := (now - 604800)%Z in
  {| total_users := Z.of_nat (size (user_last_active st));
     active_today := active_since day_ago (user_last_active st);
     active_this_week := active_since week_ago (user_last_active st);
     total_requests := default 0%Z (action_counts st !! "message_received");
     successful_conversions :=
       default 0%Z (action_counts st !! "link_processed_successfully");
     failed_conversions :=
       (default 0 (action_counts st !! "error_processing_link") +
        default 0 (action_counts st !! "product_not_found"))%Z |}.

(** The number of the calls that log the action [a]. *)
Definition logged (a : string) (calls : list logging) : Z :=
  Z.of_nat (length (filter (fun call => log_action call = a) calls)).

(** ** [bot/handlers.py]: the handlers and what they log *)

(** [int(time.time())] and the fate of the writes at one call of
    [log_user_action]. *)
Record moment := {
  at_time : Z;
  files_written : nat
}.

Definition log_at (user : Z) (action : string) (m : moment) : logging :=
  {| log_user := user; log_action := action;
     log_time := at_time m; log_written := files_written m |}.

(** What becomes of the messages that [process_aliexpress_link] sends:
    whether the processing note goes out, whether the reply is put in its
    place (the keyboard built and the edit accepted), and whether the
    apology of the [except] clause is.  A message that does not go out
    raises. *)
Record delivery := {
  note_sent : bool;
  reply_sent : bool;
  apology_sent : bool
}.

(** The actions that [process_aliexpress_link] logs.  The note is sent
    before the [try]: if it raises, nothing is logged.  A reply that
    raises, be it the product or the message that none was found, leads
    into the [except] clause, which logs only after its own message went
    out. *)
Definition link_actions (d : delivery) (reply : link_reply) : list string :=
  if negb (note_sent d) then []
  else
    let apology :=
      if apology_sent d then ["error_processing_link"] else [] in
    match reply with
    | SomethingWentWrong => apology
    | _ => if reply_sent d then [logged_action reply] else apology
    end.


Section Handlers.

(** [config.py] reads the list from the environment. *)
Variable ADMIN_USER_IDS : list Z.

Variable json_loads : string -> option json.
Variable float_of_str : string -> option float.
Variable float_of_int : Z -> option float.
Variable float_str : float -> string.
Variable json_repr : json -> string.

(** [message.from_user.id not in ADMIN_USER_IDS and ADMIN_USER_IDS] *)
Definition stats_denied (user : Z) : bool :=
  bool_decide (user ∉ ADMIN_USER_IDS) &&
  match ADMIN_USER_IDS with [] => false | _ => true end.


(** One run of a handler, with what the world gives it: the user, the
    moments of its calls of [log_user_action], and for a text message the
    text, the room of the stack, the two exchanges with the API and the
    fate of the messages. *)
Inductive handler_run :=
| StartCommand (user : Z) (m : moment)
| HelpCommand (user : Z) (m : moment)
| StatsCommand (user : Z) (m : moment)
| TextMessage (user : Z) (text : string) (m : moment) (room : nat)
              (product_exchange link_exchange : http_exchange)
              (d : delivery) (m' : moment).

(** The calls of [log_user_action] that a run makes, in their order:
    [cmd_start], [cmd_help], [cmd_stats] and [process_message] with
    [process_aliexpress_link]. *)
Definition handler_calls (run : handler_run) : list logging :=
  match run with
  | StartCommand user m => [log_at user "start_command" m]
  | HelpCommand user m => [log_at user "help_command" m]
  | StatsCommand user m =>
      if stats_denied user then [] else [log_at user "stats_command" m]
  | TextMessage user text m room product_exchange link_exchange d m' =>
      log_at user "message_received" m ::
      match process_message (Some text) with
      | ProcessLink link =>
          let product :=
            get_product_details json_loads float_of_str float_of_int
                                room product_exchange link in
          let affiliate_link :=
            convert_to_affiliate_link json_loads link_exchange link in
          (fun action => log_at user action m') <$>
            link_actions d (process_aliexpress_link float_str json_repr
                                                    product affiliate_link)
      | _ => []
      end
  end.

(** The tables after one run, and after runs one after the other. *)
Definition handle (run : handler_run) (st : analytics) : analytics :=
  log_user_actions (handler_calls run) st.

Definition handle_all (runs : list handler_run) (st : analytics) : analytics :=
  foldl (fun st run => handle run st) st runs.

End Handlers.

(** The three files as [save_analytics_to_file] leaves them when every
    write goes through. *)
Definition files_of (st : analytics) : analytics_files :=
  {| user_actions_json := Some (user_actions st);
     action_counts_json := Some (action_counts st);
     user_last_active_json := Some (user_last_active st) |}.

(** A sample call of [log_user_action], all of its writes going through. *)
Definition sample_call : logging :=
  {| log_user := 7; log_action := "message_received";
     log_time := 1700000000; log_written := 3 |}.

(** An item link whose identifier ends in the letter e with an acute
    accent, the character of code point 233. *)
Definition accented_id : string := "caf" +:+ Str.chr (ascii_of_N 233).

Definition accented_link : string :=
  "https://aliexpress.com/item/" +:+ accented_id +:+ ".html".

(** * Properties *)

(** ** Worked inputs of [extract_product_id] *)

Example extract_item room :
  extract_product_id room "https://www.aliexpress.com/item/1234567890.html"
  = Some "1234567890".
Proof. destruct room; vm_compute; reflexivity. Qed.

Example extract_category room :
  extract_product_id room "https://www.aliexpress.com/1234/9876543210.html"
  = Some "9876543210".
Proof. destruct room; vm_compute; reflexivity. Qed.

(** A redirect link takes one nested call; without room for it the
    result is [None]. *)
Example extract_redirect room :
  let link :=
    "https://s.click.aliexpress.com/e/_abc?dl_target_url=https%3A%2F%2Fwww.aliexpress.com%2Fitem%2F1234567890.html%3Fx%3D1&aff=7" in
  extract_product_id (S room) link = Some "1234567890" /\
  extract_product_id 0 link = None.
Proof. destruct room; vm_compute; done. Qed.

(** ** Lengths of the pieces that the string operations return *)

Module StrFacts.
Import Str.

Lemma app_nil_l (t : string) : "" +:+ t = t.
Proof. reflexivity. Qed.

Lemma app_cons c (s t : string) : String c s +:+ t = String c (s +:+ t).
Proof. reflexivity. Qed.

Lemma app_assoc (s t u : string) : (s +:+ t) +:+ u = s +:+ (t +:+ u).
Proof.
  induction s as [|c s IH]; [done |]. by rewrite !app_cons, IH.
Qed.

Lemma app_nil_r (s : string) : s +:+ "" = s.
Proof.
  induction s as [|c s IH]; [done |]. by rewrite app_cons, IH.
Qed.

Lemma len_app s t : len (s +:+ t) = (len s + len t)%nat.
Proof.
  unfold len. induction s as [|c s IH]; [done |].
  rewrite app_cons. simpl. by rewrite IH.
Qed.

Lemma len_map f s : len (map f s) = len s.
Proof. unfold len. induction s as [|c s IH]; simpl; [done | by rewrite IH]. Qed.

Lemma len_remove p s : (len (remove p s) <= len s)%nat.
Proof.
  unfold len. induction s as [|c s IH]; simpl; [done |].
  destruct (p c); simpl; lia.
Qed.

Lemma len_lstrip p s : (len (lstrip p s) <= len s)%nat.
Proof.
  unfold len. induction s as [|c s IH]; simpl; [done |].
  destruct (p c); simpl; lia.
Qed.

Lemma cut_len c s l r : cut c s = Some (l, r) -> len s = S (len l + len r).
Proof.
  unfold len. revert l r. induction s as [|a s IH]; simpl; intros l r H; [done |].
  destruct (Ascii.eqb a c).
  - injection H as <- <-. done.
  - destruct (cut c s) as [[l' r']|]; [|done].
    injection H as <- <-. simpl. by rewrite (IH l' r').
Qed.

Lemma rcut_len c s l r : rcut c s = Some (l, r) -> len s = (len l + len r)%nat.
Proof.
  unfold len. revert l r. induction s as [|a s IH]; simpl; intros l r H; [done |].
  destruct (rcut c s) as [[l' r']|].
  - injection H as <- <-. simpl. by rewrite (IH l' r').
  - destruct (Ascii.eqb a c); [|done]. by injection H as <- <-.
Qed.

Lemma span_until_len p s l r :
  span_until p s = (l, r) -> len s = (len l + len r)%nat.
Proof.
  unfold len. revert l r. induction s as [|a s IH]; simpl; intros l r H.
  - by injection H as <- <-.
  - destruct (p a).
    + by injection H as <- <-.
    + destruct (span_until p s) as [l' r'].
      injection H as <- <-. simpl. by rewrite (IH l' r').
Qed.

Lemma split_go_len sep skip cur s piece :
  piece ∈ split_go sep skip cur s -> (len piece <= len cur + len s)%nat.
Proof.
  revert skip cur. induction s as [|c s IH]; cbn [split_go]; intros skip cur H.
  - apply list_elem_of_singleton in H as ->. lia.
  - destruct skip as [|k].
    + destruct (String.prefix sep (String c s)).
      * apply elem_of_cons in H as [-> | H]; [lia |].
        apply IH in H. unfold len in *. simpl in *. lia.
      * apply IH in H. rewrite len_app in H. unfold len in *. simpl in *. lia.
    + apply IH in H. unfold len in *. simpl. lia.
Qed.

Lemma split_len sep s piece : piece ∈ split sep s -> (len piece <= len s)%nat.
Proof. intros H. apply split_go_len in H. unfold len in *. simpl in H. lia. Qed.

End StrFacts.

(** ** What [urlparse] and [parse_qs] return is no longer than their input *)

Module UrlFacts.
Import Str StrFacts.

Lemma split_scheme_len url s rest :
  split_scheme url = (s, rest) -> (len rest <= len url)%nat.
Proof.
  unfold split_scheme. intros H.
  destruct (cut ":" url) as [[pre post]|] eqn:Hcut.
  - apply cut_len in Hcut.
    destruct pre as [|c0 pre'].
    + injection H as <- <-. lia.
    + destruct (is_ascii c0 && is_alpha c0 && all scheme_char (String c0 pre')).
      * injection H as <- <-. lia.
      * injection H as <- <-. lia.
  - injection H as <- <-. lia.
Qed.

Lemma urlsplit_query_len url r :
  urlsplit url = Some r -> (len (query r) <= len url)%nat.
Proof.
  unfold urlsplit. intros H.
  pose proof (len_lstrip c0_control_or_space url) as H1.
  pose proof (len_remove unsafe_url_byte (lstrip c0_control_or_space url)) as H2.
  destruct (split_scheme _) as [s u1] eqn:Hs. apply split_scheme_len in Hs.
  assert (exists n u2,
    match u1 with
    | String "/" (String "/" rest) => splitnetloc rest
    | _ => (EmptyString, u1)
    end = (n, u2) /\ (len u2 <= len u1)%nat) as (n & u2 & Hn & Hle).
  { destruct (match u1 with String "/" (String "/" rest) => splitnetloc rest
              | _ => (EmptyString, u1) end) as [n u2] eqn:E.
    exists n, u2. split; [done |].
    revert E. unfold splitnetloc.
    repeat (match goal with
            | |- context [match ?x with _ => _ end] => destruct x
            end; try (intros [= <- <-]; lia)).
    all: intros E; apply span_until_len in E; unfold len in *; simpl in *; lia. }
  rewrite Hn in H.
  destruct (xorb _ _); [done |].
  destruct (cut "#" u2) as [[u3 f]|] eqn:Hf.
  - apply cut_len in Hf.
    destruct (cut "?" u3) as [[u4 q]|] eqn:Hq.
    + apply cut_len in Hq. injection H as <-. simpl. lia.
    + injection H as <-. unfold len. simpl. lia.
  - destruct (cut "?" u2) as [[u4 q]|] eqn:Hq.
    + apply cut_len in Hq. injection H as <-. simpl. lia.
    + injection H as <-. unfold len. simpl. lia.
Qed.

Lemma urlparse_query_len url r :
  urlparse url = Some r -> (len (query r) <= len url)%nat.
Proof.
  unfold urlparse. intros H.
  destruct (urlsplit url) as [r0|] eqn:Hsplit; [|done].
  apply urlsplit_query_len in Hsplit.
  destruct (_ && _).
  - destruct (splitparams (path r0)). by injection H as <-.
  - by injection H as <-.
Qed.

Lemma unquote_len_bound n s : (len s <= n)%nat -> (len (unquote s) <= len s)%nat.
Proof.
  unfold len. revert s. induction n as [|n IH]; intros s Hn.
  - destruct s; simpl in *; [done | lia].
  - destruct s as [|c t]; simpl in *; [done |].
    assert (String.length (unquote t) <= String.length t)%nat as Ht
      by (apply IH; lia).
    destruct (Ascii.eqb c "%"); [|simpl; lia].
    destruct t as [|a [|b rest]]; try (simpl in *; lia).
    destruct (hextobyte a b); [|simpl in *; lia].
    assert (String.length (unquote rest) <= String.length rest)%nat
      by (apply IH; simpl in *; lia).
    simpl in *. lia.
Qed.

Lemma unquote_len s : (len (unquote s) <= len s)%nat.
Proof. by apply (unquote_len_bound (len s)). Qed.

Lemma parse_field_len name_value n v :
  parse_field name_value = Some (n, v) -> (len v < len name_value)%nat.
Proof.
  unfold parse_field. intros H.
  destruct name_value as [|c t]; [done |].
  destruct (cut "=" (String c t)) as [[l r]|] eqn:Hcut; [|done].
  apply cut_len in Hcut.
  destruct r as [|c' r']; [done |].
  assert (v = unquote (replace_char "+" " " (String c' r'))) as ->
    by congruence.
  pose proof (unquote_len (replace_char "+" " " (String c' r'))) as Hu.
  unfold replace_char in Hu at 2. rewrite len_map in Hu. lia.
Qed.

Lemma parse_qsl_len qs n v : (n, v) ∈ parse_qsl qs -> (len v < len qs)%nat.
Proof.
  unfold parse_qsl. intros H.
  apply list_elem_of_omap in H as (name_value & Hin & Hf).
  apply parse_field_len in Hf.
  destruct qs as [|c t]; [by apply elem_of_nil in Hin |].
  apply split_len in Hin. lia.
Qed.

(** Every value that [parse_qs] files under a name is the value of a
    pair of [parse_qsl]. *)
Lemma parse_qs_values qs name values v :
  parse_qs qs !! name = Some values -> v ∈ values ->
  exists n, (n, v) ∈ parse_qsl qs.
Proof.
  unfold parse_qs.
  assert (forall pairs (acc : gmap string (list string)),
    (forall k vs x, acc !! k = Some vs -> x ∈ vs ->
                    exists n, (n, x) ∈ parse_qsl qs) ->
    (forall p, p ∈ pairs -> p ∈ parse_qsl qs) ->
    forall k vs x,
      foldl (fun parsed_result '(name, value) =>
               match parsed_result !! name with
               | Some values => <[name := (values ++ [value])%list]> parsed_result
               | None => <[name := [value]]> parsed_result
               end) acc pairs !! k = Some vs ->
      x ∈ vs -> exists n, (n, x) ∈ parse_qsl qs) as Hfold.
  { induction pairs as [|[n0 v0] pairs IH]; intros acc Hacc Hsub k vs x; simpl.
    - apply Hacc.
    - apply IH.
      + intros k' vs' x' Hk Hx.
        destruct (acc !! n0) as [old|] eqn:Hold.
        * destruct (decide (n0 = k')) as [->|Hne].
          -- rewrite lookup_insert_eq in Hk. injection Hk as <-.
             apply elem_of_app in Hx as [Hx | Hx]; [by eapply Hacc |].
             apply list_elem_of_singleton in Hx as ->.
             exists k'. apply Hsub. left.
          -- rewrite lookup_insert_ne in Hk by done. by eapply Hacc.
        * destruct (decide (n0 = k')) as [->|Hne].
          -- rewrite lookup_insert_eq in Hk. injection Hk as <-.
             apply list_elem_of_singleton in Hx as ->.
             exists k'. apply Hsub. left.
          -- rewrite lookup_insert_ne in Hk by done. by eapply Hacc.
      + intros p Hp. apply Hsub. by right. }
  apply Hfold; [|done].
  intros k vs x Hk. by rewrite lookup_empty in Hk.
Qed.

End UrlFacts.

(** ** Redirect links: [extract_product_id] on the embedded target *)

Section Redirect.
Import Str StrFacts UrlFacts.

(** The only way into the recursive call. *)
Lemma body_recurse link target_url :
  extract_product_id_body link = Recurse target_url ->
  exists parsed_url rest,
    urlparse link = Some parsed_url /\
    contains "item" (path parsed_url) = false /\
    netloc parsed_url = "s.click.aliexpress.com" /\
    parse_qs (query parsed_url) !! "dl_target_url" = Some (target_url :: rest).
Proof.
  unfold extract_product_id_body. intros H.
  destruct (urlparse link) as [parsed_url|]; [|done].
  destruct (contains "item" (path parsed_url)) eqn:Hitem.
  { by destruct (split "/item/" (path parsed_url) !! 1%nat). }
  destruct (String.eqb (netloc parsed_url) "s.click.aliexpress.com") eqn:Hhost.
  - apply String.eqb_eq in Hhost.
    destruct (parse_qs (query parsed_url) !! "dl_target_url")
      as [[|t rest]|] eqn:Hq; try done.
    injection H as ->. by exists parsed_url, rest.
  - destruct (3 <=? _)%nat; [|done].
    destruct (_ !! 1%nat) as [second|]; [|done].
    by destruct (endswith ".html" second).
Qed.

Lemma body_redirect link parsed_url target_url rest :
  urlparse link = Some parsed_url ->
  netloc parsed_url = "s.click.aliexpress.com" ->
  contains "item" (path parsed_url) = false ->
  parse_qs (query parsed_url) !! "dl_target_url" = Some (target_url :: rest) ->
  extract_product_id_body link = Recurse target_url.
Proof.
  intros Hparse Hhost Hitem Hq. unfold extract_product_id_body.
  rewrite Hparse, Hitem, Hhost, Hq. done.
Qed.

(** The recursive call is on a strictly shorter string: the target is
    the decoded value of one field of the query of [link]. *)
Lemma recurse_shorter link target_url :
  extract_product_id_body link = Recurse target_url ->
  (len target_url < len link)%nat.
Proof.
  intros H. apply body_recurse in H as (parsed_url & rest & Hparse & _ & _ & Hq).
  apply urlparse_query_len in Hparse.
  destruct (parse_qs_values _ _ _ target_url Hq) as [n Hn]; [left |].
  apply parse_qsl_len in Hn. lia.
Qed.

Lemma extract_product_id_unfold room link :
  extract_product_id room link =
  match extract_product_id_body link with
  | Return product_id => product_id
  | Recurse target_url =>
      match room with
      | O => None
      | S room' => extract_product_id room' target_url
      end
  end.
Proof. by destruct room. Qed.

Lemma nested_calls_unfold room link :
  nested_calls room link =
  match extract_product_id_body link with
  | Return _ => 0%nat
  | Recurse target_url =>
      match room with
      | O => 0%nat
      | S room' => S (nested_calls room' target_url)
      end
  end.
Proof. by destruct room. Qed.



(** Room for as many nested calls as the link has characters is room
    enough: more room changes nothing. *)
Lemma extract_product_id_room room room' link :
  (len link <= room)%nat -> (len link <= room')%nat ->
  extract_product_id room link = extract_product_id room' link.
Proof.
  revert room' link. induction room as [|room IH]; intros room' link Hroom Hroom';
    rewrite (extract_product_id_unfold _ link), (extract_product_id_unfold room' link);
    destruct (extract_product_id_body link) as [r|t] eqn:Hbody; try done;
    apply recurse_shorter in Hbody; [lia |].
  destruct room' as [|room']; [lia |]. apply IH; lia.
Qed.

Lemma nested_calls_enough room room' link :
  (len link <= room)%nat -> (len link <= room')%nat ->
  nested_calls room link = nested_calls room' link.
Proof.
  revert room' link. induction room as [|room IH]; intros room' link Hroom Hroom';
    rewrite (nested_calls_unfold _ link), (nested_calls_unfold room' link);
    destruct (extract_product_id_body link) as [r|t] eqn:Hbody; try done;
    apply recurse_shorter in Hbody; [lia |].
  destruct room' as [|room']; [lia |]. f_equal. apply IH; lia.
Qed.

(** A run that makes no more nested calls than a smaller room allows is
    the run in the smaller room. *)
Lemma extract_product_id_less_room room room' link :
  (nested_calls room' link <= room)%nat -> (room <= room')%nat ->
  extract_product_id room link = extract_product_id room' link /\
  nested_calls room link = nested_calls room' link.
Proof.
  revert room' link. induction room as [|room IH]; intros room' link Hcalls Hle;
    rewrite (extract_product_id_unfold _ link), (extract_product_id_unfold room' link),
            (nested_calls_unfold _ link), (nested_calls_unfold room' link);
    rewrite (nested_calls_unfold room' link) in Hcalls;
    destruct (extract_product_id_body link) as [r|t]; try done.
  - destruct room' as [|room']; [done | lia].
  - destruct room' as [|room']; [lia |].
    destruct (IH room' t) as [-> ->]; [lia.. | done].
Qed.

(** A run that would make more nested calls than there is room for ends
    in [None]. *)
Lemma extract_product_id_no_room room room' link :
  (room < nested_calls room' link)%nat -> extract_product_id room link = None.
Proof.
  revert room' link. induction room as [|room IH]; intros room' link Hcalls;
    rewrite (extract_product_id_unfold _ link);
    rewrite (nested_calls_unfold room' link) in Hcalls;
    destruct (extract_product_id_body link) as [r|t]; try done; try lia.
  destruct room' as [|room']; [lia |]. apply (IH room'). lia.
Qed.

(** What [extract_product_id] returns, by the nested calls that the link
    takes and the room there is. *)
Lemma extract_product_id_depth room link :
  ((redirect_depth link <= room)%nat ->
   extract_product_id room link = extract_product_id (len link) link /\
   nested_calls room link = redirect_depth link) /\
  ((room < redirect_depth link)%nat -> extract_product_id room link = None).
Proof.
  unfold redirect_depth. split.
  - intros Hroom. destruct (decide (room <= len link)%nat) as [Hle | Hgt].
    + by apply extract_product_id_less_room.
    + split.
      * symmetry. rewrite (extract_product_id_room (len link) room) by lia. done.
      * symmetry. apply nested_calls_enough; lia.
  - apply extract_product_id_no_room.
Qed.

End Redirect.

(** ** Redirect links of any depth *)

Module DepthFacts.
Import Str StrFacts UrlFacts.

Lemma any_app p s t : any p (s +:+ t) = any p s || any p t.
Proof.
  induction s as [|c s IH]; [done |].
  rewrite app_cons. simpl. by rewrite IH, orb_assoc.
Qed.

Lemma all_app p s t : all p (s +:+ t) = all p s && all p t.
Proof.
  induction s as [|c s IH]; [done |].
  rewrite app_cons. simpl. by rewrite IH, andb_assoc.
Qed.

Lemma all_any p q s :
  (forall c, p c = true -> q c = false) -> all p s = true -> any q s = false.
Proof.
  intros Hpq. induction s as [|c s IH]; simpl; [done |].
  intros [Hc Hs]%andb_prop. by rewrite (Hpq c Hc), IH.
Qed.

Lemma remove_none p s : any p s = false -> remove p s = s.
Proof.
  induction s as [|c s IH]; simpl; [done |].
  intros [-> Hs]%orb_false_elim. by rewrite IH.
Qed.

Lemma cut_none c s : has c s = false -> cut c s = None.
Proof.
  unfold has. induction s as [|a s IH]; [done |].
  cbn [any cut]. intros [Ha Hs]%orb_false_elim.
  rewrite (Ascii.eqb_sym a c), Ha. by rewrite IH.
Qed.

Lemma cut_app_l c s t l r :
  cut c s = Some (l, r) -> cut c (s +:+ t) = Some (l, r +:+ t).
Proof.
  revert l. induction s as [|a s IH]; intros l; [done |].
  rewrite app_cons. simpl. destruct (Ascii.eqb a c).
  - by intros [= <- <-].
  - destruct (cut c s) as [[l' r']|]; [|done].
    intros [= <- <-]. by rewrite (IH l').
Qed.


Lemma split_go_no_sep c cur s :
  has c s = false -> split_go (chr c) 0 cur s = [cur +:+ s].
Proof.
  unfold has. revert cur. induction s as [|a s IH]; intros cur; cbn [split_go].
  - by rewrite app_nil_r.
  - cbn [any]. intros [Ha Hs]%orb_false_elim.
    assert (String.prefix (chr c) (String a s) = false) as ->.
    { unfold chr. cbn [String.prefix].
      destruct (ascii_dec c a) as [-> | _]; [by rewrite Ascii.eqb_refl in Ha | done]. }
    rewrite IH by done. by rewrite app_assoc.
Qed.












End DepthFacts.
(** C1, as the specification states it, fails: a redirect link whose
    path contains [item] is taken for an item link, since that test comes
    first.  With an [/item/] segment of its own the link gives the
    identifier of its path, not that of the target; with [item] elsewhere
    in the path (where [split('/item/')] has one piece only) it gives
    [None].  And the host is compared as [urlparse] returns it: written
    in capitals it is not taken for the redirect host.  (The stack has
    room for 900 nested calls here.) *)
Lemma redirect_with_item_in_path :
  let room := 900%nat in
  let target_url := "https://www.aliexpress.com/item/1234567890.html" in
  let link := "https://s.click.aliexpress.com/item/999.html?dl_target_url=" +:+ target_url in
  let link' := "https://s.click.aliexpress.com/e/item_abc?dl_target_url=" +:+ target_url in
  let link'' := "https://S.CLICK.ALIEXPRESS.COM/e/_abc?dl_target_url=" +:+ target_url in
  (netloc <$> urlparse link) = Some "s.click.aliexpress.com" /\
  ((fun r => parse_qs (query r) !! "dl_target_url") <$> urlparse link)
    = Some (Some [target_url]) /\
  extract_product_id room link = Some "999" /\
  extract_product_id room target_url = Some "1234567890" /\
  (netloc <$> urlparse link') = Some "s.click.aliexpress.com" /\
  ((fun r => parse_qs (query r) !! "dl_target_url") <$> urlparse link')
    = Some (Some [target_url]) /\
  extract_product_id room link' = None /\
  (netloc <$> urlparse link'') = Some "S.CLICK.ALIEXPRESS.COM" /\
  ((fun r => parse_qs (query r) !! "dl_target_url") <$> urlparse link'')
    = Some (Some [target_url]) /\
  extract_product_id room link'' = None.
Proof. vm_compute. done. Qed.

(** C1 (amended).  Take a link whose [netloc], as [urlparse] returns it,
    is the string [s.click.aliexpress.com] (lower case, no port, no user
    information), whose path does not contain [item] and whose query
    carries a [dl_target_url] value.  On it [extract_product_id] returns
    what its nested call on the first such value returns, the nested call
    having room for one nested call less; without room for the nested
    call it returns [None].  Hence, when the stack has room for the nested
    calls that the value takes, the result is the result of
    [extract_product_id] on the value. *)
Theorem extract_product_id_redirect (room : nat) link parsed_url target_url rest :
  urlparse link = Some parsed_url ->
  netloc parsed_url = "s.click.aliexpress.com" ->
  Str.contains "item" (path parsed_url) = false ->
  parse_qs (query parsed_url) !! "dl_target_url" = Some (target_url :: rest) ->
  extract_product_id 0 link = None /\
  extract_product_id (S room) link = extract_product_id room target_url /\
  forall room',
    (redirect_depth target_url <= room)%nat ->
    (redirect_depth target_url <= room')%nat ->
    extract_product_id (S room) link = extract_product_id room' target_url.
Proof.
  intros Hparse Hhost Hitem Hq.
  pose proof (body_redirect _ _ _ _ Hparse Hhost Hitem Hq) as Hbody.
  split; [by rewrite extract_product_id_unfold, Hbody |].
  assert (extract_product_id (S room) link = extract_product_id room target_url)
    as Hnested by (by rewrite extract_product_id_unfold, Hbody).
  split; [done |].
  intros room' Hroom Hroom'. rewrite Hnested.
  destruct (extract_product_id_depth room target_url) as [[-> _] _]; [done |].
  by destruct (extract_product_id_depth room' target_url) as [[-> _] _].
Qed.

Lemma extract_product_id_redirect_witness :
  extract_product_id 0 (redirect_to item_link) = None /\
  extract_product_id 992 (redirect_to item_link) = extract_product_id 991 item_link /\
  forall room',
    (redirect_depth item_link <= 991)%nat ->
    (redirect_depth item_link <= room')%nat ->
    extract_product_id 992 (redirect_to item_link) = extract_product_id room' item_link.
Proof.
  apply (extract_product_id_redirect 991 (redirect_to item_link)
           {| scheme := "https"; netloc := "s.click.aliexpress.com";
              path := "/e/_abc"; params := "";
              query := "dl_target_url=" +:+ item_link; fragment := "" |}
           item_link []).
  - vm_compute. reflexivity.
  - reflexivity.
  - vm_compute. reflexivity.
  - vm_compute. reflexivity.
Defined.




(** ** Extracted links are valid links *)

Example extract_links_two :
  extract_aliexpress_links
    (Some "see https://www.aliexpress.com/item/1234567890.html and http://s.click.aliexpress.com/e/_abc now, or https://fr.aliexpress.com/12/34.html")
  = [ "https://www.aliexpress.com/item/1234567890.html";
      "https://fr.aliexpress.com/12/34.html";
      "http://s.click.aliexpress.com/e/_abc" ].
Proof. vm_compute. reflexivity. Qed.

Example extract_links_none :
  extract_aliexpress_links (Some "no link here: https://example.com/item/1.html") = [].
Proof. vm_compute. reflexivity. Qed.

Example valid_prefix_only :
  is_valid_aliexpress_link "https://aliexpress.ru/item/12ab.html?spm=1" = true.
Proof. vm_compute. reflexivity. Qed.

Example extract_links_adjacent :
  extract_aliexpress_links
    (Some "https://www.aliexpress.com/item/12.html.htmlhttps://aliexpress.com/item/a_b.html")
  = [ "https://www.aliexpress.com/item/12.html";
      "https://aliexpress.com/item/a_b.html" ].
Proof. vm_compute. reflexivity. Qed.

Module ReFacts.
Import Str StrFacts.

Lemma substring_app_l (s t : string) :
  String.substring 0 (len (s +:+ t) - len t) (s +:+ t) = s.
Proof.
  rewrite len_app. replace (len s + len t - len t)%nat with (len s) by lia.
  unfold len. induction s as [|c s IH].
  - by destruct t.
  - rewrite app_cons. simpl. by rewrite IH.
Qed.

(** *** The matcher finds nothing but what the pattern denotes *)

Lemma many_sound {A} p s (k : string -> option A) x :
  many p s k = Some x ->
  exists s1 s2, s = s1 +:+ s2 /\ all p s1 = true /\ k s2 = Some x.
Proof.
  induction s as [|a t IH]; simpl; intros H.
  - by exists "", "".
  - destruct (p a) eqn:Hp; [|by exists "", (String a t)].
    destruct (many p t k) as [y|] eqn:Hm.
    + injection H as ->. destruct (IH eq_refl) as (s1 & s2 & -> & Hall & Hk).
      exists (String a s1), s2. rewrite app_cons. simpl. by rewrite Hp, Hall.
    + by exists "", (String a t).
Qed.

Lemma run_sound {A} r s (k : string -> option A) x :
  run r s k = Some x ->
  exists s1 s2, s = s1 +:+ s2 /\ matches r s1 /\ k s2 = Some x.
Proof.
  revert A s k x.
  induction r as [|c|p|r1 IH1 r2 IH2|r1 IH1 r2 IH2|r1 IH1|p];
    intros A s k x H; simpl in H.
  - exists "", s. repeat split; [constructor | done].
  - destruct s as [|a t]; [done |].
    destruct (Ascii.eqb a c) eqn:E; [|done]. apply Ascii.eqb_eq in E as ->.
    exists (chr c), t. repeat split; [constructor | done].
  - destruct s as [|a t]; [done |]. destruct (p a) eqn:E; [|done].
    exists (chr a), t. repeat split; [by constructor | done].
  - apply IH1 in H as (s1 & t & -> & H1 & H).
    apply IH2 in H as (s2 & u & -> & H2 & H).
    exists (s1 +:+ s2), u. rewrite app_assoc. repeat split; [by constructor | done].
  - destruct (run r1 s k) as [y|] eqn:E.
    + injection H as ->. apply IH1 in E as (s1 & s2 & -> & H1 & Hk).
      exists s1, s2. repeat split; [by apply m_alt_l | done].
    + apply IH2 in H as (s1 & s2 & -> & H2 & Hk).
      exists s1, s2. repeat split; [by apply m_alt_r | done].
  - destruct (run r1 s k) as [y|] eqn:E.
    + injection H as ->. apply IH1 in E as (s1 & s2 & -> & H1 & Hk).
      exists s1, s2. repeat split; [by apply m_opt_some | done].
    + exists "", s. repeat split; [apply m_opt_none | done].
  - destruct s as [|a t]; [done |]. destruct (p a) eqn:E; [|done].
    apply many_sound in H as (s1 & s2 & -> & Hall & Hk).
    exists (String a s1), s2. repeat split; [by constructor | done].
Qed.

(** *** The matcher finds a match wherever the pattern denotes one *)

Lemma many_complete {A} p s1 s2 (k : string -> option A) :
  all p s1 = true -> is_Some (k s2) -> is_Some (many p (s1 +:+ s2) k).
Proof.
  intros Hall Hk. induction s1 as [|c s1 IH].
  - rewrite app_nil_l. destruct s2 as [|a t]; simpl; [done |].
    destruct (p a); [|done]. by destruct (many p t k).
  - rewrite app_cons. simpl in *. apply andb_prop in Hall as [-> Hall].
    by destruct (IH Hall) as [y ->].
Qed.

Lemma run_complete {A} r s1 :
  matches r s1 ->
  forall s2 (k : string -> option A),
    is_Some (k s2) -> is_Some (run r (s1 +:+ s2) k).
Proof.
  intros H. revert A.
  induction H as [|c|p c Hp|r1 r2 s1 s1' _ IH1 _ IH2|r1 r2 s _ IH|r1 r2 s _ IH
                  |r|r s _ IH|p c s Hp Hall]; intros A s2 k Hk;
    rewrite ?app_nil_l, ?app_cons; simpl.
  - done.
  - by rewrite Ascii.eqb_refl.
  - by rewrite Hp.
  - rewrite app_assoc. apply IH1. by apply IH2.
  - by destruct (IH A s2 k Hk) as [y ->].
  - destruct (run r1 (s +:+ s2) k); [done |]. by apply IH.
  - by destruct (run r s2 k).
  - by destruct (IH A s2 k Hk) as [y ->].
  - rewrite Hp. by apply many_complete.
Qed.

Lemma re_match_matches r s m : re_match r s = Some m -> matches r m.
Proof.
  unfold re_match. intros H.
  apply run_sound in H as (s1 & s2 & -> & Hm & H).
  injection H as <-. by rewrite substring_app_l.
Qed.

Lemma matches_re_match r s : matches r s -> is_Some (re_match r s).
Proof.
  intros H. unfold re_match.
  rewrite <- (app_nil_r s) at 1. by apply run_complete.
Qed.

Lemma findall_go_matches r skip text m :
  m ∈ findall_go r skip text -> matches r m.
Proof.
  revert skip. induction text as [|c t IH]; intros skip H.
  - destruct skip; simpl in H; [|by apply elem_of_nil in H].
    destruct (re_match r "") as [m'|] eqn:E; [|by apply elem_of_nil in H].
    apply list_elem_of_singleton in H as ->. by eapply re_match_matches.
  - destruct skip as [|k]; simpl in H; [|by eapply IH].
    destruct (re_match r (String c t)) as [m'|] eqn:E; [|by eapply IH].
    apply elem_of_cons in H as [-> | H]; [by eapply re_match_matches |].
    by eapply IH.
Qed.

Lemma findall_links patterns text acc link :
  link ∈ foldl (fun links pattern => (links ++ findall pattern text)%list)
               acc patterns ->
  link ∈ acc \/ exists pattern, pattern ∈ patterns /\ matches pattern link.
Proof.
  revert acc. induction patterns as [|r patterns IH]; simpl; intros acc H.
  - by left.
  - apply IH in H as [H | (pattern & Hin & Hm)].
    + apply elem_of_app in H as [H | H]; [by left |].
      right. exists r. split; [left |]. by eapply findall_go_matches.
    + right. exists pattern. split; [by right | done].
Qed.

Lemma extracted_link_matches text link :
  link ∈ extract_aliexpress_links text ->
  exists pattern, pattern ∈ ALIEXPRESS_LINK_PATTERNS /\ matches pattern link.
Proof.
  unfold extract_aliexpress_links. intros H.
  destruct text as [[|c t]|]; try by apply elem_of_nil in H.
  apply findall_links in H as [H | H]; [by apply elem_of_nil in H | done].
Qed.

Lemma matching_link_valid pattern link :
  pattern ∈ ALIEXPRESS_LINK_PATTERNS -> matches pattern link ->
  is_valid_aliexpress_link link = true.
Proof.
  intros Hin Hm. unfold is_valid_aliexpress_link.
  apply existsb_exists. exists pattern. split.
  - by apply list_elem_of_In.
  - apply bool_decide_eq_true. by apply matches_re_match.
Qed.

End ReFacts.

(** C10.  Every string that [extract_aliexpress_links] returns is, as a
    whole, in the language of one of the four patterns, and passes
    [is_valid_aliexpress_link]; so [process_message] answers that no link
    was found when none was extracted, and goes on with the first
    extracted link otherwise: the reply of the [else] of its loop is never
    sent. *)
Theorem extracted_links_are_valid (text : option string) :
  Forall (fun link =>
            (exists pattern,
               pattern ∈ ALIEXPRESS_LINK_PATTERNS /\ matches pattern link) /\
            is_valid_aliexpress_link link = true)
         (extract_aliexpress_links text) /\
  process_message text =
    match extract_aliexpress_links text with
    | [] => NoLinkFound
    | link :: _ => ProcessLink link
    end.
Proof.
  assert (Forall (fun link =>
                    (exists pattern,
                       pattern ∈ ALIEXPRESS_LINK_PATTERNS /\ matches pattern link) /\
                    is_valid_aliexpress_link link = true)
                 (extract_aliexpress_links text)) as Hall.
  { apply Forall_forall. intros link Hin.
    apply ReFacts.extracted_link_matches in Hin as (pattern & Hin & Hm).
    split; [by exists pattern |]. by eapply ReFacts.matching_link_valid. }
  split; [done |].
  unfold process_message, process_message_links.
  destruct (extract_aliexpress_links text) as [|link links]; [done |].
  apply Forall_cons in Hall as [[_ Hlink] _]. simpl. by rewrite Hlink.
Qed.

(** ** Usage telemetry: the tables agree with the event log *)

Section Telemetry.

Lemma save_keeps_tables written st :
  user_actions (save_analytics_to_file written st) = user_actions st /\
  action_counts (save_analytics_to_file written st) = action_counts st /\
  user_last_active (save_analytics_to_file written st) = user_last_active st.
Proof. done. Qed.

(** What one call does to the three tables. *)
Lemma log_user_action_tables call st :
  user_actions (log_user_action call st) = (user_actions st ++ [event_of call])%list /\
  action_counts (log_user_action call st)
    = <[log_action call := (default 0 (action_counts st !! log_action call) + 1)%Z]>
        (action_counts st) /\
  user_last_active (log_user_action call st)
    = <[log_user call := log_time call]> (user_last_active st).
Proof.
  unfold log_user_action. by destruct (_ =? 0)%nat.
Qed.

Lemma log_user_action_agree call st :
  tables_agree st -> tables_agree (log_user_action call st).
Proof.
  intros [Hcount Hlast].
  destruct (log_user_action_tables call st) as (Hev & Hac & Hla).
  split.
  - intros a. rewrite Hac, Hev. unfold events_of_action.
    rewrite filter_app, length_app.
    destruct (decide (log_action call = a)) as [<- | Hne].
    + rewrite lookup_insert_eq. simpl.
      rewrite filter_cons_True by done. rewrite Hcount.
      unfold events_of_action. simpl. lia.
    + rewrite lookup_insert_ne by done.
      rewrite filter_cons_False by done. rewrite Hcount.
      unfold events_of_action. simpl. lia.
  - intros u. rewrite Hla, Hev. unfold events_of_user. rewrite filter_app.
    destruct (decide (log_user call = u)) as [<- | Hne].
    + rewrite lookup_insert_eq. rewrite filter_cons_True by done.
      by rewrite filter_nil, last_snoc.
    + rewrite lookup_insert_ne by done. rewrite filter_cons_False by done.
      rewrite filter_nil, app_nil_r. apply Hlast.
Qed.

Lemma log_user_actions_agree calls st :
  tables_agree st -> tables_agree (log_user_actions calls st).
Proof.
  unfold log_user_actions. revert st.
  induction calls as [|call calls IH]; intros st H; simpl; [done |].
  by apply IH, log_user_action_agree.
Qed.

Lemma log_user_actions_events calls st :
  user_actions (log_user_actions calls st)
  = (user_actions st ++ (event_of <$> calls))%list.
Proof.
  unfold log_user_actions. revert st.
  induction calls as [|call calls IH]; intros st; simpl.
  - by rewrite app_nil_r.
  - rewrite IH. destruct (log_user_action_tables call st) as (-> & _ & _).
    by rewrite <- app_assoc.
Qed.

End Telemetry.

(** C9.  After any calls of [log_user_action] on the empty tables, the log
    holds one event for each call, in the order of the calls; the count
    of an action type is the number of its events in the log; the
    last-active entry of a user is the timestamp of the last event of
    that user.  Each call appends one event, adds one to the count of its
    action type and to no other, and sets the last-active entry of its
    user and no other. *)
Theorem telemetry_tables_agree (calls : list logging) :
  let st := log_user_actions calls empty_analytics in
  user_actions st = event_of <$> calls /\
  (forall a, default 0%Z (action_counts st !! a)
             = Z.of_nat (length (events_of_action a (user_actions st)))) /\
  (forall u, user_last_active st !! u
             = timestamp <$> last (events_of_user u (user_actions st))) /\
  forall call,
    let st' := log_user_action call st in
    user_actions st' = (user_actions st ++ [event_of call])%list /\
    default 0%Z (action_counts st' !! log_action call)
      = (default 0 (action_counts st !! log_action call) + 1)%Z /\
    (forall a, a <> log_action call -> action_counts st' !! a = action_counts st !! a) /\
    user_last_active st' !! log_user call = Some (log_time call) /\
    (forall u, u <> log_user call ->
               user_last_active st' !! u = user_last_active st !! u).
Proof.
  intros st.
  assert (tables_agree st) as [Hcount Hlast].
  { apply log_user_actions_agree.
    split; intros; unfold empty_analytics; simpl; by rewrite lookup_empty. }
  split; [apply (log_user_actions_events calls empty_analytics) |].
  split; [done |]. split; [done |].
  intros call st'.
  destruct (log_user_action_tables call st) as (Hev & Hac & Hla).
  subst st'. rewrite Hev, Hac, Hla.
  split; [done |]. split; [by rewrite lookup_insert_eq |].
  split; [intros a Ha; by rewrite lookup_insert_ne |].
  split; [by rewrite lookup_insert_eq |].
  intros u Hu. by rewrite lookup_insert_ne.
Qed.

(** The hundredth call writes the three files; the ninety-ninth does not. *)
Example telemetry_flush :
  let call := {| log_user := 7; log_action := "message_received";
                 log_time := 1700000000; log_written := 3 |} in
  user_actions_json (files (log_user_actions (replicate 99 call) empty_analytics))
    = None /\
  (length <$> user_actions_json
     (files (log_user_actions (replicate 100 call) empty_analytics)))
    = Some 100%nat.
Proof. vm_compute. done. Qed.

(** ** The affiliate link *)

Section AffiliateLink.

Variable json_loads : string -> option json.





End AffiliateLink.

(** The failures, one by one: each ends in the input URL. *)
Lemma convert_to_affiliate_link_falls_back
      (json_loads : string -> option json) (product_url : string) :
  let key := "aliexpress.affiliate.link.generate_response" in
  let convert := convert_to_affiliate_link json_loads in
  (* the request fails, or the status is not 200, or the body is no JSON *)
  convert PostRaises product_url = JStr product_url /\
  (forall status body,
     status <> 200%Z -> convert (Response status body) product_url = JStr product_url) /\
  convert (Response 200 None) product_url = JStr product_url /\
  (* the body is an error payload *)
  (forall error rest,
     convert (Response 200 (Some (JDict (("error_response", error) :: rest))))
             product_url = JStr product_url) /\
  (* the response key is missing, or its result is missing or empty *)
  convert (Response 200 (Some (JDict [("other", JNull)]))) product_url
    = JStr product_url /\
  convert (Response 200 (Some (JDict [(key, JDict [])]))) product_url
    = JStr product_url /\
  convert (Response 200 (Some (JDict [(key, JDict [("result", JStr "")])])))
          product_url = JStr product_url /\
  (* the result does not decode, or has no promotion links, or an empty
     list of them, or an empty link in the first of them *)
  (forall encoded,
     json_loads encoded = None ->
     convert (Response 200 (Some (JDict [(key, JDict [("result", JStr encoded)])])))
             product_url = JStr product_url) /\
  (forall encoded links,
     json_loads encoded = Some links ->
     links = JDict [("other", JNull)] \/
     links = JDict [("promotion_links", JList [])] \/
     links = JDict [("promotion_links",
                     JList [JDict [("promotion_link", JStr "")]])] ->
     convert (Response 200 (Some (JDict [(key, JDict [("result", JStr encoded)])])))
             product_url = JStr product_url).
Proof.
  intros key convert. subst key convert.
  repeat split; try reflexivity.
  - intros status body Hstatus. unfold convert_to_affiliate_link, make_api_request.
    apply Z.eqb_neq in Hstatus. by rewrite Hstatus.
  - intros encoded Hloads.
    destruct encoded as [|c encoded']; [done |].
    vm_compute. by rewrite Hloads.
  - intros encoded links Hloads Hlinks.
    destruct encoded as [|c encoded']; [done |].
    vm_compute. rewrite Hloads.
    by destruct Hlinks as [-> | [-> | ->]].
Qed.




(** The promotion link of a well-formed response is what the function
    returns (the decoder is given by its value on the [result] string). *)
Example convert_promotion_link :
  convert_to_affiliate_link
    (fun _ => Some (JDict [("promotion_links",
                            JList [JDict [("promotion_link",
                                           JStr "https://s.click.aliexpress.com/e/_xyz")]])]))
    (Response 200
       (Some (JDict [("aliexpress.affiliate.link.generate_response",
                      JDict [("result", JStr "{...}")])])))
    "https://www.aliexpress.com/item/1234567890.html"
  = JStr "https://s.click.aliexpress.com/e/_xyz".
Proof. vm_compute. reflexivity. Qed.

(** ** The reply text *)

Section ReplyText.

Variable float_str : float -> string.
Variable json_repr : json -> string.

(** The text, line by line. *)
Lemma response_text_lines product affiliate_link :
  response_text float_str json_repr product affiliate_link =
  discount ←
    match shows_discount product with
    | Some original =>
        d ← discount_percent (price product) original;
        Some (discount_line float_str original d)
    | None => Some ""
    end;
  Some (title_lines float_str json_repr product +:+ discount +:+
        from_option (shipping_line float_str) "" (shipping_cost product) +:+
        from_option (rating_line float_str) "" (shows_rating product) +:+
        link_lines json_repr affiliate_link).
Proof.
  unfold response_text.
  destruct (shows_discount product) as [original|]; simpl.
  - destruct (discount_percent (price product) original) as [d|]; simpl; [|done].
    destruct (shipping_cost product), (shows_rating product); simpl;
      by rewrite ?StrFacts.app_assoc, ?StrFacts.app_nil_l.
  - destruct (shipping_cost product), (shows_rating product); simpl;
      by rewrite ?StrFacts.app_assoc, ?StrFacts.app_nil_l.
Qed.

Lemma shows_rating_zero product :
  shows_rating (with_rating (Some 0%float) product) = None.
Proof. reflexivity. Qed.

(** A rating that is present and not zero has its line. *)
Lemma rating_line_shown product affiliate_link r text :
  rating product = Some r -> PrimFloat.eqb r 0%float = false ->
  response_text float_str json_repr product affiliate_link = Some text ->
  exists before,
    text = before +:+ rating_line float_str r +:+ link_lines json_repr affiliate_link.
Proof.
  intros Hr Hnz. rewrite response_text_lines.
  unfold shows_rating. rewrite Hr, Hnz. simpl.
  destruct (match shows_discount product with Some _ => _ | None => _ end)
    as [discount|]; simpl; [|done].
  intros [= <-].
  exists (title_lines float_str json_repr product +:+ discount +:+
          from_option (shipping_line float_str) "" (shipping_cost product)).
  by rewrite !StrFacts.app_assoc.
Qed.

End ReplyText.

(** C6, on the code: a rating that is present and zero has no line.  The
    reply to a product whose rating is [0.0] is the reply to the same
    product without a rating: [if product.get('rating')] takes the zero
    for a missing value, unlike the test [is not None] on the shipping
    cost two lines above it. *)
Theorem rating_zero_has_no_line
        (float_str : float -> string) (json_repr : json -> string)
        (product : ProductDetails) (affiliate_link : json) :
  response_text float_str json_repr (with_rating (Some 0%float) product) affiliate_link
  = response_text float_str json_repr (with_rating None product) affiliate_link.
Proof. by rewrite !response_text_lines. Qed.

(** The product of the API has the rating [0.0] when its
    [evaluation_rate] is [0.0] (the decoder is given by its value on the
    [result] string). *)
Example rating_zero_is_present :
  rating <$>
    parse_product_details
      (fun _ => Some (JDict [("products",
                              JList [JDict [("title", JStr "Phone case");
                                            ("evaluation_rate", JFloat 0)]])]))
      (fun _ => None) (fun _ => Some 0%float)
      "1234567890"
      (JDict [("aliexpress.ds.product.get_response",
               JDict [("result", JStr "{...}")])])
  = Some (Some 0%float).
Proof. vm_compute. reflexivity. Qed.

(** ** The title *)

Lemma substring_len n s :
  Str.len (String.substring 0 n s) = Nat.min n (Str.len s).
Proof.
  unfold Str.len. revert s. induction n as [|n IH]; intros [|c s]; simpl; try done.
  by rewrite IH.
Qed.

(** [sanitize_product_title] does what the data model asks of a title:
    the placeholder for a missing or empty one, at most 100 characters,
    the first 97 and an ellipsis in place of a longer title. *)
Lemma sanitize_product_title_bounded (title : option string) :
  (title = None \/ title = Some "" ->
   sanitize_product_title title = "Unknown Product") /\
  (Str.len (sanitize_product_title title) <= 100)%nat /\
  (forall t, title = Some t -> (100 < Str.len t)%nat ->
             sanitize_product_title title = String.substring 0 97 t +:+ "...") /\
  (forall t, title = Some t -> t <> "" -> (Str.len t <= 100)%nat ->
             sanitize_product_title title = t).
Proof.
  repeat split.
  - by intros [-> | ->].
  - destruct title as [[|c t]|]; try (vm_compute; lia).
    unfold sanitize_product_title.
    destruct (100 <? Str.len (String c t))%nat eqn:Hlong.
    + rewrite StrFacts.len_app, substring_len. vm_compute (Str.len "..."). lia.
    + apply Nat.ltb_ge in Hlong. lia.
  - intros t -> Hlong. destruct t as [|c t]; [vm_compute in Hlong; lia |].
    unfold sanitize_product_title.
    apply Nat.ltb_lt in Hlong. by rewrite Hlong.
  - intros t -> Hne Hlen. destruct t as [|c t]; [done |].
    unfold sanitize_product_title.
    apply Nat.ltb_ge in Hlen. by rewrite Hlen.
Qed.

(** The reply starts with the title as the product has it. *)
Lemma response_text_title float_str json_repr product affiliate_link t text :
  title product = JStr t ->
  response_text float_str json_repr product affiliate_link = Some text ->
  exists rest, text = "🛍️ <b>" +:+ t +:+ "</b>" +:+ rest.
Proof.
  intros Ht. rewrite response_text_lines.
  destruct (match shows_discount product with Some _ => _ | None => _ end)
    as [discount|]; simpl; [|done].
  intros [= <-]. unfold title_lines. rewrite Ht. simpl.
  eexists. by rewrite !StrFacts.app_assoc.
Qed.

(** C7, on the code: the reply shows the title as the API sent it.  A
    title of 120 characters is in the reply in full, where
    [sanitize_product_title], which no function calls, would cut it to 97
    characters and an ellipsis; an empty title stays empty, since
    [get_product_details] puts the placeholder in for a missing [title]
    key only. *)
Theorem title_shown_as_received
        (float_str : float -> string) (json_repr : json -> string) :
  let product := {| title := JStr long_title; price := 10%float;
                    product_id := "1234567890"; original_price := None;
                    rating := None; shipping_cost := None |} in
  let affiliate_link := JStr "https://s.click.aliexpress.com/e/_xyz" in
  Str.len long_title = 120%nat /\
  response_text float_str json_repr product affiliate_link
    = Some ("🛍️ <b>" +:+ long_title +:+ "</b>" +:+ LF +:+ LF +:+
            "💰 <b>Current Price:</b> $" +:+ float_str 10%float +:+ LF +:+
            link_lines json_repr affiliate_link) /\
  Str.len (sanitize_product_title (Some long_title)) = 100%nat /\
  title_lines float_str json_repr (with_title (JStr "") product)
    = "🛍️ <b></b>" +:+ LF +:+ LF +:+
      "💰 <b>Current Price:</b> $" +:+ float_str 10%float +:+ LF /\
  sanitize_product_title (Some "") = "Unknown Product".
Proof.
  intros product affiliate_link.
  split; [reflexivity |]. split.
  - rewrite response_text_lines. simpl.
    unfold title_lines. simpl.
    by rewrite ?StrFacts.app_assoc, ?StrFacts.app_nil_l.
  - split; [reflexivity |]. split; [|reflexivity].
    unfold title_lines. simpl. by rewrite ?StrFacts.app_assoc.
Qed.

(** What [get_product_details] makes of the [title] of the product: the
    value of the key, also when it is empty, and the placeholder when the
    key is missing (the decoder is given by its value on the [result]
    string). *)
Example title_empty_kept :
  title <$>
    parse_product_details
      (fun _ => Some (JDict [("products", JList [JDict [("title", JStr "")]])]))
      (fun _ => None) (fun _ => Some 0%float)
      "1234567890"
      (JDict [("aliexpress.ds.product.get_response",
               JDict [("result", JStr "{...}")])])
  = Some (JStr "").
Proof. vm_compute. reflexivity. Qed.

Example title_missing_placeholder :
  title <$>
    parse_product_details
      (fun _ => Some (JDict [("products", JList [JDict [("sku", JStr "x")]])]))
      (fun _ => None) (fun _ => Some 0%float)
      "1234567890"
      (JDict [("aliexpress.ds.product.get_response",
               JDict [("result", JStr "{...}")])])
  = Some (JStr "Unknown Product").
Proof. vm_compute. reflexivity. Qed.

(** ** The discount *)

(** [Py.round_half_even m e] is an integer nearest to [m * 2^e], and the
    even one of the two when [m * 2^e] lies half way between two. *)
Lemma round_half_even_nearest (m : positive) (e : Z) :
  let n := Py.round_half_even m e in
  ((0 <= e)%Z -> n = (Z.pos m * 2 ^ e)%Z) /\
  ((e < 0)%Z ->
   let d := (2 ^ (- e))%Z in
   (Z.abs (2 * (n * d - Z.pos m)) <= d)%Z /\
   (Z.abs (2 * (n * d - Z.pos m)) = d -> Z.even n = true)).
Proof.
  unfold Py.round_half_even. cbv zeta. split.
  - intros He. apply Z.leb_le in He. by rewrite He.
  - intros He. assert ((0 <=? e)%Z = false) as -> by (apply Z.leb_gt; lia).
    set (d := (2 ^ (- e))%Z).
    assert (0 < d)%Z as Hd by (apply Z.pow_pos_nonneg; lia).
    pose proof (Z.div_mod (Z.pos m) d ltac:(lia)) as Hdm.
    pose proof (Z.mod_pos_bound (Z.pos m) d Hd) as Hr.
    set (q := (Z.pos m / d)%Z) in *. set (r := (Z.pos m mod d)%Z) in *.
    assert (q * d - Z.pos m = - r)%Z as Hdown by lia.
    assert ((q + 1) * d - Z.pos m = d - r)%Z as Hup by lia.
    destruct (2 * r ?= d)%Z eqn:Hcmp.
    + apply Z.compare_eq in Hcmp.
      destruct (Z.even q) eqn:Hev.
      * rewrite Hdown. split; [lia | done].
      * rewrite Hup. split; [lia |]. intros _. by rewrite Z.even_add, Hev.
    + rewrite Z.compare_lt_iff in Hcmp. rewrite Hdown.
      split; [lia | intros ?; exfalso; lia].
    + rewrite Z.compare_gt_iff in Hcmp. rewrite Hup.
      split; [lia | intros ?; exfalso; lia].
Qed.

(** C8, as the specification states it, fails.  For the price 85 and the
    original price 200 the exact percentage is 57.5, which rounds to 58
    (a tie, to the even integer), and the formula of the specification,
    taken in doubles in its order, gives 58 as well; the reply says 57:
    the quotient 0.575 is not a double, and its nearest double times 100
    is the double below 57.5. *)
Lemma discount_of_85_from_200 :
  discount_percent 85 200 = Some 57%Z /\
  Qround_half_even (exact_percent 85 200) = 58%Z /\
  Py.round (100 * (200 - 85) / 200)%float = Some 58%Z /\
  (PrimFloat.ltb ((200 - 85) / 200 * 100) 57.5 = true)%float.
Proof. vm_compute. done. Qed.

(** [round] raises on the infinities and on what is no number, and on
    nothing else. *)
Lemma round_raises (x : float) :
  Py.round x = None <->
  Prim2SF x = S754_nan \/ exists s, Prim2SF x = S754_infinity s.
Proof.
  unfold Py.round. destruct (Prim2SF x) as [s|s| |s m e]; split; try done.
  - intros [H | [s' H]]; discriminate H.
  - intros _. right. by exists s.
  - intros _. by left.
  - intros [H | [s' H]]; discriminate H.
Qed.

(** C8 (amended).  Take a product whose original price is present, not
    zero and above the price, and let [percent] be the double
    [((original_price - price) / original_price) * 100], each operation
    that of doubles, in this order.  If [percent] is finite, the reply
    has, after the title and the price, the line of the original price
    with the percentage [round(percent)]: the integer nearest to the
    double, a tie going to the even one.  If it is not (an original price
    that is infinite makes it so), [round] raises: there is no product
    reply, and the answer is that something went wrong.  For the price 80
    and the original price 100 the percentage is 20, and the line says
    [(Save 20%)]. *)
Theorem discount_line_in_reply
        (float_str : float -> string) (json_repr : json -> string)
        (product : ProductDetails) (affiliate_link : json) (original : float) :
  original_price product = Some original ->
  PrimFloat.eqb original 0%float = false ->
  PrimFloat.ltb (price product) original = true ->
  let percent := (((original - price product) / original) * 100)%float in
  match Py.round percent with
  | Some discount =>
      exists rest,
        response_text float_str json_repr product affiliate_link
        = Some (title_lines float_str json_repr product +:+
                "🏷️ <b>Original Price:</b> $" +:+ float_str original +:+
                " (Save " +:+ Py.str_int discount +:+ "%)" +:+ LF +:+ rest)
  | None =>
      response_text float_str json_repr product affiliate_link = None /\
      process_aliexpress_link float_str json_repr (Some product) affiliate_link
      = SomethingWentWrong
  end /\
  (Py.round percent = None <->
   Prim2SF percent = S754_nan \/ exists s, Prim2SF percent = S754_infinity s) /\
  discount_percent 80 100 = Some 20%Z /\
  Py.str_int 20 = "20".
Proof.
  intros Hop Hnz Hgt percent.
  split; [|split; [apply round_raises | by vm_compute]].
  unfold process_aliexpress_link. rewrite response_text_lines.
  unfold shows_discount, discount_percent. rewrite Hop, Hnz, Hgt. simpl.
  fold percent. destruct (Py.round percent) as [discount|]; simpl; [|done].
  unfold discount_line. eexists. by rewrite !StrFacts.app_assoc.
Qed.

Lemma discount_line_in_reply_witness :
  exists rest,
    response_text (fun _ => "?") (fun _ => "?")
      {| title := JStr "Phone case"; price := 80%float;
         product_id := "1234567890"; original_price := Some 100%float;
         rating := None; shipping_cost := None |}
      (JStr "https://s.click.aliexpress.com/e/_xyz")
    = Some (title_lines (fun _ => "?") (fun _ => "?")
              {| title := JStr "Phone case"; price := 80%float;
                 product_id := "1234567890"; original_price := Some 100%float;
                 rating := None; shipping_cost := None |} +:+
            "🏷️ <b>Original Price:</b> $" +:+ "?" +:+
            " (Save " +:+ Py.str_int 20 +:+ "%)" +:+ LF +:+ rest).
Proof.
  refine (proj1 (discount_line_in_reply (fun _ => "?") (fun _ => "?")
           {| title := JStr "Phone case"; price := 80%float;
              product_id := "1234567890"; original_price := Some 100%float;
              rating := None; shipping_cost := None |}
           (JStr "https://s.click.aliexpress.com/e/_xyz") 100%float _ _ _)).
  - reflexivity.
  - vm_compute. reflexivity.
  - vm_compute. reflexivity.
Defined.

(** ** The signature *)

Section Signing.

Variable ALIEXPRESS_APP_KEY : string.
Variable ALIEXPRESS_APP_SECRET : string.
Variable md5_hexdigest : string -> string.

#[local] Instance item_le_total : Total item_le.
Proof.
  intros a b. unfold item_le.
  destruct (decide (a.1 = b.1)) as [E | E].
  - destruct (total String.le a.2 b.2); [left | right]; right; by split.
  - destruct (total String.le a.1 b.1); [left | right]; left; by split.
Qed.

#[local] Instance key_le_total : Total key_le.
Proof. intros a b. unfold key_le. apply (total String.le). Qed.

#[local] Instance key_le_trans : Transitive key_le.
Proof. intros a b c. unfold key_le. apply (transitivity (R := String.le)). Qed.

Lemma item_le_key_le a b : item_le a b -> key_le a b.
Proof.
  unfold item_le, key_le. intros [[_ H] | [-> _]]; [done |].
  apply (reflexivity (R := String.le)).
Qed.

Lemma Sorted_weaken {A} (R R' : relation A) l :
  (forall x y, R x y -> R' x y) -> Sorted R l -> Sorted R' l.
Proof.
  intros HR. induction 1 as [|x l _ IH Hhd]; constructor; [done |].
  destruct Hhd; constructor. by apply HR.
Qed.

(** With the keys of a dict, each once, the order of the tuples is the
    order of the keys. *)
Lemma sorted_items_by_key (params : gmap string string) :
  sorted_items params = items_by_key params.
Proof.
  unfold sorted_items, items_by_key.
  apply (Sorted_unique_strong key_le).
  - intros x1 x2 H1 H2 H12 H21.
    rewrite merge_sort_Permutation in H1. rewrite merge_sort_Permutation in H2.
    destruct x1 as [k1 v1], x2 as [k2 v2].
    apply elem_of_map_to_list in H1, H2.
    assert (k1 = k2) as -> by (by apply (anti_symm String.le)).
    congruence.
  - eapply Sorted_weaken; [apply item_le_key_le |]. apply Sorted_merge_sort, _.
  - apply Sorted_merge_sort, _.
  - by rewrite !merge_sort_Permutation.
Qed.

Lemma foldl_concat_pairs init items :
  foldl (fun concatenated '(key, value) => concatenated +:+ (key +:+ py_str value))
        init items
  = init +:+ concat_pairs items.
Proof.
  revert init. induction items as [|[key value] items IH]; intros init; simpl.
  - by rewrite StrFacts.app_nil_r.
  - rewrite IH. unfold py_str. by rewrite !StrFacts.app_assoc.
Qed.

(** The keys of the sorted items go up strictly. *)
Lemma items_by_key_ascending (params : gmap string string) :
  items_by_key params ≡ₚ map_to_list params /\
  StronglySorted key_lt (items_by_key params).
Proof.
  unfold items_by_key. split; [apply merge_sort_Permutation |].
  assert (NoDup (merge_sort key_le (map_to_list params)).*1) as Hnd.
  { rewrite merge_sort_Permutation. apply NoDup_fst_map_to_list. }
  pose proof (StronglySorted_merge_sort key_le (map_to_list params)) as Hs.
  revert Hnd Hs. generalize (merge_sort key_le (map_to_list params)).
  intros l Hnd Hs.
  induction Hs as [|x l _ IH Hall]; [constructor |].
  rewrite fmap_cons in Hnd. apply NoDup_cons in Hnd as [Hx Hnd].
  constructor; [by apply IH |].
  apply Forall_forall. intros y Hy. split.
  - rewrite Forall_forall in Hall. by apply Hall.
  - intros E. apply Hx. rewrite E. apply list_elem_of_fmap. by exists y.
Qed.

End Signing.

(** C4.  The signature that [generate_signature] returns for a parameter
    map is the upper-cased MD5 hex digest of: the secret, each key
    followed by its value with the pairs in ascending order of the keys
    and nothing between them, the secret again.  [make_api_request] signs
    the merged common and method parameters, before the [sign] entry is
    added, and posts them with this signature as [sign]. *)
Theorem signature_as_specified
        (app_key secret : string) (md5_hexdigest : string -> string) :
  (forall params : gmap string string,
     generate_signature secret md5_hexdigest params
       = signature_spec secret md5_hexdigest params /\
     items_by_key params ≡ₚ map_to_list params /\
     StronglySorted key_lt (items_by_key params)) /\
  (forall (method timestamp : string) (params : gmap string string),
     let all_params := params ∪ common_params app_key method timestamp in
     let posted := request_params app_key secret md5_hexdigest method timestamp params in
     posted !! "sign" = Some (signature_spec secret md5_hexdigest all_params) /\
     delete "sign" posted = delete "sign" all_params).
Proof.
  assert (forall params : gmap string string,
            generate_signature secret md5_hexdigest params
            = signature_spec secret md5_hexdigest params) as Hsig.
  { intros params. unfold generate_signature, signature_spec.
    by rewrite foldl_concat_pairs, sorted_items_by_key, StrFacts.app_assoc. }
  split.
  - intros params. split; [apply Hsig |]. apply items_by_key_ascending.
  - intros method timestamp params all_params posted.
    subst posted. unfold request_params. fold all_params. split.
    + by rewrite lookup_insert_eq, Hsig.
    + by rewrite delete_insert_eq.
Qed.

(** With the identity in place of the digest, the signed string itself. *)
Example signed_string :
  generate_signature "SECRET" (fun s => s)
    (<["urls" := "https://aliexpress.com/item/1.html"]>
       (common_params "512082" "aliexpress.affiliate.link.generate" "1700000000000"))
  = Str.upper
      "SECRETapp_key512082formatjsonmethodaliexpress.affiliate.link.generatesign_methodmd5timestamp1700000000000urlshttps://aliexpress.com/item/1.htmlv2.0SECRET".
Proof. vm_compute. reflexivity. Qed.

(** ** The rate limiter *)

Section Limiter.

Local Open Scope Q_scope.

Lemma Qltb_lt x y : Qltb x y = true <-> x < y.
Proof.
  unfold Qltb. rewrite negb_true_iff. split.
  - intros H. apply Qnot_le_lt. intros Hle. apply Qle_bool_iff in Hle. congruence.
  - intros H. destruct (Qle_bool y x) eqn:E; [|done].
    apply Qle_bool_iff in E. lra.
Qed.

Lemma Qltb_ge x y : Qltb x y = false <-> y <= x.
Proof.
  split.
  - intros H. destruct (Qlt_le_dec x y) as [Hlt | Hle]; [|done].
    apply Qltb_lt in Hlt. congruence.
  - intros H. destruct (Qltb x y) eqn:E; [|done]. apply Qltb_lt in E. lra.
Qed.

Lemma filter_all {A} (P : A -> Prop) `{!forall x, Decision (P x)} (l : list A) :
  (forall a, a ∈ l -> P a) -> filter P l = l.
Proof.
  induction l as [|x l IH]; intros Hall; [done |].
  rewrite filter_cons_True by (apply Hall; left).
  f_equal. apply IH. intros a Ha. apply Hall. by right.
Qed.

(** On a sorted window the purge drops a front part, all of it sixty
    seconds old or older, and keeps the rest. *)
Lemma purge_sorted (current_time : Q) (window : list Q) :
  StronglySorted Qle window ->
  exists dropped,
    window = (dropped ++
              filter (fun ts => Is_true (Qltb (current_time - ts) 60)) window)%list /\
    (forall a, a ∈ dropped -> a + 60 <= current_time) /\
    (forall a, a ∈ filter (fun ts => Is_true (Qltb (current_time - ts) 60)) window ->
               current_time - a < 60).
Proof.
  intros Hs.
  assert (forall (l : list Q) a,
            a ∈ filter (fun ts => Is_true (Qltb (current_time - ts) 60)) l ->
            current_time - a < 60) as Hkept.
  { intros l a Ha. apply list_elem_of_filter in Ha as [Ha _].
    apply Is_true_true in Ha. by apply Qltb_lt. }
  induction Hs as [|x l Hs IH Hall].
  - exists []. repeat split; [by intros a Ha%elem_of_nil | apply Hkept].
  - destruct (Qltb (current_time - x) 60) eqn:Hx.
    + exists []. split; [|split; [by intros a Ha%elem_of_nil | apply Hkept]].
      simpl. symmetry. apply filter_all.
      apply Qltb_lt in Hx. rewrite Forall_forall in Hall.
      intros a [-> | Ha]%elem_of_cons; apply Is_true_true, Qltb_lt; [done |].
      specialize (Hall a Ha). lra.
    + destruct IH as (dropped & Hl & Hold & _).
      exists (x :: dropped). split; [|split; [|apply Hkept]].
      * rewrite filter_cons_False by (rewrite Hx; simpl; tauto).
        simpl. by rewrite <- Hl.
      * apply Qltb_ge in Hx.
        intros a [-> | Ha]%elem_of_cons; [lra | by apply Hold].
Qed.

(** One call keeps the invariant, and records a timestamp. *)
Lemma respect_rate_limit_keeps cap t st history :
  (1 <= cap)%nat -> timing_ok t -> limiter_inv cap history st ->
  exists st',
    respect_rate_limit_at cap t st = Some st' /\
    limiter_inv cap (history ++ [clock st']) st'.
Proof.
  intros Hcap [Hidle Hlate] [Hsorted Hclock (old & Hhist & Hold) Hspaced].
  unfold respect_rate_limit_at. cbv zeta.
  set (current_time := clock st + idle t).
  assert (StronglySorted Qle (request_timestamps st)) as Hws.
  { rewrite Hhist in Hsorted. by apply StronglySorted_app_1_r in Hsorted. }
  destruct (purge_sorted current_time _ Hws) as (dropped & Hw & Hdropped & Hkept).
  set (kept := filter (fun ts => Is_true (Qltb (current_time - ts) 60))
                      (request_timestamps st)) in *.
  (* the history is what went out of the window, then what is kept *)
  assert (history = ((old ++ dropped) ++ kept)%list) as Hsplit.
  { rewrite Hhist. rewrite Hw at 1. by rewrite <- app_assoc. }
  assert (forall a, a ∈ (old ++ dropped)%list -> a + 60 <= current_time) as Hout.
  { intros a [Ha | Ha]%elem_of_app; [|by apply Hdropped].
    specialize (Hold a Ha). unfold current_time. lra. }
  (* no more than [cap] timestamps are kept *)
  assert (length kept <= cap)%nat as Hfew.
  { destruct (decide (length kept <= cap)%nat) as [|Hmany]; [done |].
    exfalso. destruct kept as [|x kept'] eqn:Ek; [simpl in Hmany; lia |].
    assert (history !! length (old ++ dropped)%list = Some x) as Hx.
    { rewrite Hsplit. by rewrite list_lookup_middle. }
    destruct (lookup_lt_is_Some_2 history (length (old ++ dropped)%list + cap))
      as [b Hb].
    { rewrite Hsplit at 1. rewrite !length_app. simpl in *. lia. }
    pose proof (Hspaced _ _ _ Hx Hb) as Hxb.
    assert (b <= clock st) as Hbc by (apply Hclock; by eapply list_elem_of_lookup_2).
    assert (current_time - x < 60) as Hxk by (apply Hkept; left).
    unfold current_time in Hxk. lra. }
  (* the time at which the call goes on, after the wait if there is one *)
  assert (exists woken,
    (if (cap <=? length kept)%nat then
       oldest ← head kept;
       Some (if Qltb 0 (60 - (current_time - oldest))
             then current_time + (60 - (current_time - oldest))
             else current_time)
     else Some current_time) = Some woken /\
    current_time <= woken /\
    ((cap <= length kept)%nat -> forall oldest, head kept = Some oldest ->
                                                 oldest + 60 <= woken))
    as (woken & -> & Hafter & Hwait).
  { destruct (cap <=? length kept)%nat eqn:Hfull.
    - apply Nat.leb_le in Hfull.
      destruct kept as [|oldest kept'] eqn:Ek; [simpl in Hfull; lia |]. simpl.
      destruct (Qltb 0 (60 - (current_time - oldest))) eqn:Hw0.
      + apply Qltb_lt in Hw0. eexists. split; [done |].
        split; [lra |]. intros _ ? [= <-]. lra.
      + apply Qltb_ge in Hw0. eexists. split; [done |].
        split; [lra |]. intros _ ? [= <-]. lra.
    - apply Nat.leb_gt in Hfull. eexists. split; [done |].
      split; [lra |]. intros ?. lia. }
  simpl. eexists. split; [done |]. simpl.
  set (stamp := woken + late t).
  assert (current_time <= stamp) as Hstamp by (unfold stamp; lra).
  assert (clock st <= stamp) as Hmono by (unfold current_time in Hstamp; lra).
  split; simpl.
  - apply StronglySorted_app_2; [|done | repeat constructor].
    intros a b Ha ->%list_elem_of_singleton. specialize (Hclock a Ha). lra.
  - intros a [Ha | ->%list_elem_of_singleton]%elem_of_app; [|lra].
    specialize (Hclock a Ha). lra.
  - exists (old ++ dropped)%list. split.
    + by rewrite Hsplit, <- !app_assoc.
    + intros a Ha. specialize (Hout a Ha). lra.
  - intros i first last Hfirst Hlast.
    destruct (decide (i + cap < length history)%nat) as [Hin | Hend].
    + rewrite lookup_app_l in Hfirst by lia. rewrite lookup_app_l in Hlast by lia.
      by eapply Hspaced.
    + assert (i + cap = length history)%nat as Hlen.
      { apply lookup_lt_Some in Hlast. rewrite length_app in Hlast. simpl in Hlast. lia. }
      rewrite Hlen, list_lookup_middle in Hlast by done. injection Hlast as <-.
      rewrite lookup_app_l in Hfirst by lia.
      destruct (decide (i < length (old ++ dropped)%list)%nat) as [Hgone | Hstill].
      * rewrite Hsplit, lookup_app_l in Hfirst by done.
        apply list_elem_of_lookup_2 in Hfirst. specialize (Hout _ Hfirst). lra.
      * assert (length history = (length (old ++ dropped)%list + length kept)%nat)
          as Hl by (rewrite Hsplit at 1; by rewrite length_app).
        assert (cap <= length kept)%nat as Hfull by lia.
        assert (i = length (old ++ dropped)%list) as -> by lia.
        rewrite Hsplit in Hfirst.
        rewrite lookup_app_r in Hfirst by done.
        rewrite Nat.sub_diag in Hfirst.
        assert (head kept = Some first) as Hhead by (by destruct kept).
        specialize (Hwait Hfull first Hhead). unfold stamp. lra.
Qed.

Lemma limiter_at_inv cap start : limiter_inv cap [] (limiter_at start).
Proof.
  split; simpl.
  - constructor.
  - by intros a Ha%elem_of_nil.
  - exists []. split; [done |]. by intros a Ha%elem_of_nil.
  - intros i first last Hfirst. by rewrite lookup_nil in Hfirst.
Qed.

(** Calls one after the other keep the invariant, each recording one
    timestamp. *)
Lemma respect_rate_limit_calls_keep cap timings st history :
  (1 <= cap)%nat -> Forall timing_ok timings -> limiter_inv cap history st ->
  exists st' stamps,
    respect_rate_limit_calls cap timings st = Some (st', stamps) /\
    length stamps = length timings /\
    limiter_inv cap (history ++ stamps) st'.
Proof.
  intros Hcap Hok. revert st history.
  induction Hok as [|t timings Ht _ IH]; intros st history Hinv; simpl.
  - exists st, []. by rewrite app_nil_r.
  - destruct (respect_rate_limit_keeps cap t st history Hcap Ht Hinv)
      as (st1 & -> & Hinv1). simpl.
    destruct (IH st1 _ Hinv1) as (st' & stamps & -> & Hlen & Hinv'). simpl.
    exists st', (clock st1 :: stamps). split; [done |]. split; [simpl; lia |].
    by rewrite <- app_assoc in Hinv'.
Qed.

End Limiter.

(** C5.  With a cap of [cap] requests a minute ([cap] at least one; the
    configured cap is 30), calls of [respect_rate_limit] issued one after
    the other from the start of the process all return, each recording
    one timestamp, and the timestamp of call [i + cap] is at least sixty
    seconds after the timestamp of call [i]: in particular, of [cap + 1]
    calls, however close together they are issued, the last is
    dispatched sixty seconds or more after the first. *)
Theorem rate_limit_spacing (cap : nat) (timings : list call_timing) (start : Q) :
  (1 <= cap)%nat -> Forall timing_ok timings ->
  exists st stamps,
    respect_rate_limit_calls cap timings (limiter_at start) = Some (st, stamps) /\
    length stamps = length timings /\
    forall i first last,
      stamps !! i = Some first -> stamps !! (i + cap)%nat = Some last ->
      (first + 60 <= last)%Q.
Proof.
  intros Hcap Hok.
  destruct (respect_rate_limit_calls_keep cap timings (limiter_at start) []
              Hcap Hok (limiter_at_inv cap start))
    as (st & stamps & Hrun & Hlen & Hinv).
  exists st, stamps. split; [done |]. split; [done |].
  apply (inv_spaced _ _ _ Hinv).
Qed.

Lemma rate_limit_spacing_witness :
  exists st stamps,
    respect_rate_limit_calls MAX_REQUESTS_PER_MINUTE
      (replicate 31 {| idle := 1 # 100; late := 0 |}) (limiter_at 1700000000)
    = Some (st, stamps) /\
    length stamps = length (replicate 31 {| idle := 1 # 100; late := 0 |}) /\
    forall i first last,
      stamps !! i = Some first ->
      stamps !! (i + MAX_REQUESTS_PER_MINUTE)%nat = Some last ->
      (first + 60 <= last)%Q.
Proof.
  apply (rate_limit_spacing MAX_REQUESTS_PER_MINUTE
           (replicate 31 {| idle := 1 # 100; late := 0 |}) 1700000000).
  - unfold MAX_REQUESTS_PER_MINUTE. lia.
  - apply Forall_replicate. split; vm_compute; discriminate.
Defined.

(** Thirty-one calls, a hundredth of a second apart: the thirty-first
    waits for the first to turn sixty seconds old.  With a cap of two,
    every third call waits. *)
Example rate_limit_thirty_one :
  (fun r : limiter * list Q => (Qred <$> r.2 !! 0%nat, Qred <$> r.2 !! 29%nat, Qred <$> r.2 !! 30%nat)) <$>
    respect_rate_limit_calls MAX_REQUESTS_PER_MINUTE
      (replicate 31 {| idle := 1 # 100; late := 0 |}) (limiter_at 1700000000)
  = Some (Some (170000000001 # 100)%Q, Some (17000000003 # 10)%Q,
          Some (170000006001 # 100)%Q).
Proof. vm_compute. reflexivity. Qed.

Example rate_limit_cap_two :
  (fun r : limiter * list Q => Qred <$> r.2) <$>
    respect_rate_limit_calls 2
      (replicate 5 {| idle := 1; late := 0 |}) (limiter_at 0)
  = Some [1; 2; 61; 62; 121]%Q.
Proof. vm_compute. reflexivity. Qed.

(** * Further properties *)

(** ** Links found in a text *)

Module LinkFacts.
Import Str StrFacts ReFacts.

Lemma re_match_prefix r s m : re_match r s = Some m -> exists rest, s = m +:+ rest.
Proof.
  unfold re_match. intros H.
  apply run_sound in H as (s1 & s2 & -> & _ & H).
  injection H as <-. exists s2. by rewrite substring_app_l.
Qed.

Lemma findall_go_occurs r skip text m :
  m ∈ findall_go r skip text ->
  exists before after, text = before +:+ m +:+ after.
Proof.
  revert skip. induction text as [|c t IH]; intros skip H.
  - destruct skip; simpl in H; [|by apply elem_of_nil in H].
    destruct (re_match r "") as [m'|] eqn:E; [|by apply elem_of_nil in H].
    apply list_elem_of_singleton in H as ->.
    apply re_match_prefix in E as [rest E]. by exists "", rest.
  - assert (forall k, m ∈ findall_go r k t ->
              exists before after, String c t = before +:+ m +:+ after) as Hlater.
    { intros k Hk. destruct (IH k Hk) as (before & after & ->).
      by exists (String c before), after. }
    destruct skip as [|k]; simpl in H; [|by eapply Hlater].
    destruct (re_match r (String c t)) as [m'|] eqn:E; [|by eapply Hlater].
    apply elem_of_cons in H as [-> | H]; [|by eapply Hlater].
    apply re_match_prefix in E as [rest E]. exists "", rest. by rewrite app_nil_l.
Qed.

Lemma findall_member patterns text acc link :
  link ∈ foldl (fun links pattern => (links ++ findall pattern text)%list)
               acc patterns ->
  link ∈ acc \/ exists pattern, pattern ∈ patterns /\ link ∈ findall pattern text.
Proof.
  revert acc. induction patterns as [|r patterns IH]; simpl; intros acc H.
  - by left.
  - apply IH in H as [H | (pattern & Hin & Hm)].
    + apply elem_of_app in H as [H | H]; [by left |].
      right. exists r. split; [left | done].
    + right. exists pattern. split; [by right | done].
Qed.

Lemma matches_lit s m : matches (lit s) m -> m = s.
Proof.
  revert m. induction s as [|c s IH]; intros m H; simpl in H.
  - by inversion H.
  - inversion H as [| | |r1 r2 s1 s2 H1 H2| | | | |]; subst.
    inversion H1; subst. by rewrite (IH s2 H2).
Qed.

Lemma prefix_app (s t : string) : String.prefix s (s +:+ t) = true.
Proof.
  induction s as [|c s IH]; [by destruct t |].
  rewrite app_cons. cbn [String.prefix].
  by destruct (ascii_dec c c).
Qed.

(** Each of the four patterns starts with [http]. *)
Lemma matches_http pattern link :
  pattern ∈ ALIEXPRESS_LINK_PATTERNS -> matches pattern link ->
  String.prefix "http" link = true.
Proof.
  intros Hin Hm.
  assert (exists r, pattern = Cat http_s r) as [r ->].
  { unfold ALIEXPRESS_LINK_PATTERNS in Hin.
    repeat (apply elem_of_cons in Hin as [-> | Hin]; [by eexists |]).
    by apply elem_of_nil in Hin. }
  inversion Hm as [| | |r1 r2 s1 s2 H1 H2| | | | |]; subst.
  unfold http_s in H1.
  inversion H1 as [| | |r1 r2 s11 s12 H11 H12| | | | |]; subst.
  apply (matches_lit "http") in H11 as ->.
  rewrite StrFacts.app_assoc. apply prefix_app.
Qed.

End LinkFacts.

(** X1.  Every link that [extract_aliexpress_links] returns starts with
    [http] and stands in the text as it is; a message without text, or
    with an empty one, has no links. *)
Theorem extracted_links_occur (text : string) :
  Forall (fun link =>
            String.prefix "http" link = true /\
            exists before after, text = before +:+ link +:+ after)
         (extract_aliexpress_links (Some text)) /\
  extract_aliexpress_links None = [] /\
  extract_aliexpress_links (Some "") = [].
Proof.
  split; [|done].
  apply Forall_forall. intros link Hin. split.
  - apply ReFacts.extracted_link_matches in Hin as (pattern & Hp & Hm).
    by eapply LinkFacts.matches_http.
  - unfold extract_aliexpress_links in Hin.
    destruct text as [|c t]; [by apply elem_of_nil in Hin |].
    apply LinkFacts.findall_member in Hin as [Hin | (pattern & _ & Hin)];
      [by apply elem_of_nil in Hin |].
    unfold findall in Hin. by eapply LinkFacts.findall_go_occurs.
Qed.

(** X2.  [is_valid_aliexpress_link] looks at the start of the string
    only: a valid link stays valid whatever follows it. *)
Theorem valid_link_any_suffix (link suffix : string) :
  is_valid_aliexpress_link link = true ->
  is_valid_aliexpress_link (link +:+ suffix) = true.
Proof.
  unfold is_valid_aliexpress_link. intros H.
  apply existsb_exists in H as (pattern & Hin & H).
  apply bool_decide_eq_true in H as [m Hm].
  apply existsb_exists. exists pattern. split; [done |].
  apply bool_decide_eq_true.
  pose proof (ReFacts.re_match_matches _ _ _ Hm) as Hlang.
  apply LinkFacts.re_match_prefix in Hm as [rest ->].
  rewrite StrFacts.app_assoc. unfold re_match.
  by apply ReFacts.run_complete.
Qed.

Lemma valid_link_any_suffix_witness :
  is_valid_aliexpress_link
    ("https://www.aliexpress.com/item/1234567890.html" +:+ "?spm=a2g0o&x=<b>")
  = true.
Proof.
  apply (valid_link_any_suffix "https://www.aliexpress.com/item/1234567890.html"
                               "?spm=a2g0o&x=<b>").
  vm_compute. reflexivity.
Defined.

(** ** The identifier of a product link *)

Module ShapeFacts.
Import Str StrFacts DepthFacts.

Lemma span_until_stop p s c r :
  any p s = false -> p c = true ->
  span_until p (s +:+ String c r) = (s, String c r).
Proof.
  intros Hs Hc. induction s as [|a s IH].
  - rewrite app_nil_l. cbn [span_until]. by rewrite Hc.
  - rewrite app_cons. cbn [any] in Hs. apply orb_false_elim in Hs as [Ha Hs].
    cbn [span_until]. by rewrite Ha, IH.
Qed.

Lemma prefix_first_absent c sep a s :
  Ascii.eqb c a = false -> String.prefix (String c sep) (String a s) = false.
Proof.
  intros H. cbn [String.prefix].
  destruct (ascii_dec c a) as [-> | _]; [by rewrite Ascii.eqb_refl in H | done].
Qed.

(** A separator whose first character does not occur is not found. *)
Lemma split_go_absent c sep cur s :
  has c s = false -> split_go (String c sep) 0 cur s = [cur +:+ s].
Proof.
  unfold has. revert cur. induction s as [|a s IH]; intros cur; cbn [split_go].
  - by rewrite app_nil_r.
  - cbn [any]. intros [Ha Hs]%orb_false_elim.
    rewrite prefix_first_absent by done.
    rewrite IH by done. by rewrite app_assoc.
Qed.

(** A one-character separator splits at its first occurrence. *)
Lemma split_go_first c cur s t :
  has c s = false ->
  split_go (chr c) 0 cur (s +:+ String c t)
  = (cur +:+ s) :: split_go (chr c) 0 "" t.
Proof.
  unfold has. revert cur. induction s as [|a s IH]; intros cur.
  - intros _. rewrite app_nil_l, app_nil_r. cbn [split_go].
    assert (String.prefix (chr c) (String c t) = true) as ->.
    { unfold chr. cbn [String.prefix]. destruct (ascii_dec c c); [by destruct t | done]. }
    done.
  - cbn [any]. intros [Ha Hs]%orb_false_elim.
    rewrite app_cons. cbn [split_go]. unfold chr at 1.
    rewrite prefix_first_absent by done.
    fold (chr c). rewrite IH by done. by rewrite app_assoc.
Qed.

Lemma contains_absent c sub s : has c s = false -> contains (String c sub) s = false.
Proof.
  unfold has. induction s as [|a s IH]; [done |].
  cbn [any]. intros [Ha Hs]%orb_false_elim.
  cbn [contains]. rewrite prefix_first_absent by done. by rewrite IH.
Qed.

Lemma rstrip_kept p s c : p c = false -> rstrip p (s +:+ chr c) = s +:+ chr c.
Proof.
  intros Hc. induction s as [|a s IH].
  - rewrite app_nil_l. unfold chr. cbn [rstrip]. by rewrite Hc.
  - rewrite app_cons. cbn [rstrip]. rewrite IH.
    destruct s; [by rewrite app_nil_l | by rewrite app_cons].
Qed.

Lemma substring_app_r (s t : string) :
  String.substring (len s) (len t) (s +:+ t) = t.
Proof.
  unfold len. induction s as [|a s IH].
  - rewrite app_nil_l. cbn [String.length].
    induction t as [|b t IHt]; [done |]. cbn [String.length String.substring].
    by rewrite IHt.
  - rewrite app_cons. cbn [String.length String.substring]. apply IH.
Qed.

Lemma endswith_app s t : endswith t (s +:+ t) = true.
Proof.
  unfold endswith. rewrite len_app.
  replace (len s + len t - len t)%nat with (len s) by lia.
  rewrite substring_app_r, String.eqb_refl.
  rewrite andb_true_r. apply Nat.leb_le. lia.
Qed.

(** A host character ends no host and is no bracket; a path character
    starts neither the query nor the fragment nor the parameters. *)
Lemma host_char_inert c :
  host_char c = true ->
  unsafe_url_byte c = false /\ has c "/?#" = false /\
  Ascii.eqb "[" c = false /\ Ascii.eqb "]" c = false.
Proof.
  destruct c as [[] [] [] [] [] [] [] []]; vm_compute; intros H;
    try discriminate H; done.
Qed.

Lemma kept_in_path_inert c :
  kept_in_path c = true ->
  unsafe_url_byte c = false /\ Ascii.eqb "#" c = false /\
  Ascii.eqb "?" c = false /\ Ascii.eqb ";" c = false.
Proof.
  destruct c as [[] [] [] [] [] [] [] []]; vm_compute; intros H;
    try discriminate H; done.
Qed.

Lemma path_char_kept c : path_char c = true -> kept_in_path c = true.
Proof.
  destruct c as [[] [] [] [] [] [] [] []]; vm_compute; intros H;
    try discriminate H; done.
Qed.

(** What [urlparse] makes of a link of a scheme, a host and a path. *)
Lemma urlparse_link_of sch host p :
  sch = "http" \/ sch = "https" ->
  all host_char host = true -> all kept_in_path p = true ->
  urlparse (link_of sch host p)
  = Some {| scheme := sch; netloc := host; path := String "/" p;
            params := ""; query := ""; fragment := "" |}.
Proof.
  intros Hsch Hhost Hpath.
  assert (any unsafe_url_byte host = false) as Hsafe_host
    by (eapply all_any; [|done]; intros c Hc; by apply host_char_inert).
  assert (any unsafe_url_byte p = false) as Hsafe_path
    by (eapply all_any; [|done]; intros c Hc; by apply kept_in_path_inert).
  assert (any (fun c => has c "/?#") host = false) as Hend
    by (eapply all_any; [|done]; intros c Hc; by apply host_char_inert).
  assert (has "[" host = false /\ has "]" host = false) as [Hopen Hclose]
    by (split; (eapply all_any; [|done]); intros c Hc; by apply host_char_inert).
  assert (has "#" (String "/" p) = false /\ has "?" (String "/" p) = false /\
          has ";" (String "/" p) = false) as (Hhash & Hquery & Hsemi).
  { unfold has. cbn [any]. cbn [orb Ascii.eqb Bool.eqb].
    repeat split; (eapply all_any; [|done]); intros c Hc; by apply kept_in_path_inert. }
  unfold urlparse, urlsplit, link_of.
  destruct Hsch as [-> | ->].
  - change ("http" +:+ "://" +:+ host +:+ String "/" p)
      with (String "h" ("ttp://" +:+ (host +:+ String "/" p))).
    cbn [lstrip]. replace (c0_control_or_space "h") with false by reflexivity.
    change (String "h" ("ttp://" +:+ (host +:+ String "/" p)))
      with ("http://" +:+ (host +:+ String "/" p)).
    rewrite remove_none
      by (rewrite any_app, any_app; cbn [any]; by rewrite Hsafe_host, Hsafe_path).
    unfold split_scheme.
    erewrite cut_app_l by (vm_compute; reflexivity).
    cbv beta iota.
    replace (is_ascii "h" && is_alpha "h" && all scheme_char "http") with true
      by reflexivity.
    replace (lower "http") with "http" by reflexivity.
    change ("//" +:+ host +:+ String "/" p)
      with (String "/" (String "/" (host +:+ String "/" p))).
    cbv beta iota. unfold splitnetloc.
    rewrite span_until_stop by done.
    rewrite Hopen, Hclose. cbn [xorb].
    rewrite (cut_none "#") by done. rewrite (cut_none "?") by done.
    cbv beta iota. cbn [scheme path netloc query fragment].
    rewrite Hsemi, andb_false_r. done.
  - change ("https" +:+ "://" +:+ host +:+ String "/" p)
      with (String "h" ("ttps://" +:+ (host +:+ String "/" p))).
    cbn [lstrip]. replace (c0_control_or_space "h") with false by reflexivity.
    change (String "h" ("ttps://" +:+ (host +:+ String "/" p)))
      with ("https://" +:+ (host +:+ String "/" p)).
    rewrite remove_none
      by (rewrite any_app, any_app; cbn [any]; by rewrite Hsafe_host, Hsafe_path).
    unfold split_scheme.
    erewrite cut_app_l by (vm_compute; reflexivity).
    cbv beta iota.
    replace (is_ascii "h" && is_alpha "h" && all scheme_char "https") with true
      by reflexivity.
    replace (lower "https") with "https" by reflexivity.
    change ("//" +:+ host +:+ String "/" p)
      with (String "/" (String "/" (host +:+ String "/" p))).
    cbv beta iota. unfold splitnetloc.
    rewrite span_until_stop by done.
    rewrite Hopen, Hclose. cbn [xorb].
    rewrite (cut_none "#") by done. rewrite (cut_none "?") by done.
    cbv beta iota. cbn [scheme path netloc query fragment].
    rewrite Hsemi, andb_false_r. done.
Qed.

Lemma all_impl (p q : ascii -> bool) s :
  (forall c, p c = true -> q c = true) -> all p s = true -> all q s = true.
Proof.
  intros Hpq. induction s as [|c s IH]; [done |]. cbn [all].
  intros [Hc Hs]%andb_prop. by rewrite (Hpq c Hc), IH.
Qed.

Lemma split_go_skip sep s cur t :
  split_go sep (len s) cur (s +:+ t) = split_go sep 0 cur t.
Proof.
  induction s as [|c s IH]; [by destruct t |].
  rewrite app_cons. cbn [len String.length split_go]. apply IH.
Qed.

(** A separator at the start ends the piece being read. *)
Lemma split_go_sep c sep cur t :
  split_go (String c sep) 0 cur (String c sep +:+ t)
  = cur :: split_go (String c sep) 0 "" t.
Proof.
  rewrite app_cons at 1. cbn [split_go].
  rewrite <- app_cons, LinkFacts.prefix_app.
  cbn [len String.length].
  replace (S (String.length sep) - 1)%nat with (len sep) by (unfold len; lia).
  by rewrite (split_go_skip (String c sep) sep "" t).
Qed.

Lemma word_chars c :
  word c = true ->
  kept_in_path c = true /\ Ascii.eqb "/" c = false /\ Ascii.eqb "." c = false.
Proof.
  destruct c as [[] [] [] [] [] [] [] []]; vm_compute; intros H;
    try discriminate H; done.
Qed.

Lemma digit_chars c :
  digit c = true ->
  word c = true /\ Ascii.eqb "i" c = false.
Proof.
  destruct c as [[] [] [] [] [] [] [] []]; vm_compute; intros H;
    try discriminate H; done.
Qed.

Lemma extract_product_id_return room link r :
  extract_product_id_body link = Return r -> extract_product_id room link = r.
Proof. intros H. by rewrite extract_product_id_unfold, H. Qed.

(** The identifier of an item link. *)
Lemma extract_item_link room sch host id :
  sch = "http" \/ sch = "https" ->
  all host_char host = true -> all word id = true ->
  extract_product_id room (link_of sch host ("item/" +:+ id +:+ ".html")) = Some id.
Proof.
  intros Hsch Hhost Hid.
  assert (all kept_in_path id = true) as Hpath
    by (eapply all_impl; [|done]; intros c Hc; by apply word_chars).
  assert (has "/" id = false /\ has "." id = false) as [Hslash Hdot]
    by (split; (eapply all_any; [|exact Hid]); intros c Hc; by apply word_chars).
  apply extract_product_id_return. unfold extract_product_id_body.
  rewrite urlparse_link_of; [|done..|by rewrite !all_app, Hpath].
  cbn [path].
  replace (contains "item" (String "/" ("item/" +:+ id +:+ ".html"))) with true
    by (vm_compute; reflexivity).
  unfold split.
  change (String "/" ("item/" +:+ id +:+ ".html"))
    with ("/item/" +:+ (id +:+ ".html")).
  rewrite (split_go_sep "/" "item/").
  rewrite split_go_absent
    by (unfold has in *; rewrite any_app, Hslash; reflexivity).
  cbn [lookup list_lookup]. rewrite app_nil_l.
  change (split_go "." 0 "" (id +:+ ".html"))
    with (split_go (chr ".") 0 "" (id +:+ String "." "html")).
  rewrite split_go_first by done.
  by rewrite app_nil_l.
Qed.

(** The identifier of a link of a category and a product. *)
Lemma extract_category_link room sch host cat id :
  sch = "http" \/ sch = "https" ->
  all host_char host = true -> host <> "s.click.aliexpress.com" ->
  cat <> "" -> all digit cat = true -> all digit id = true ->
  extract_product_id room (link_of sch host (cat +:+ "/" +:+ id +:+ ".html")) = Some id.
Proof.
  intros Hsch Hhost Hother Hcat Hdcat Hdid.
  assert (forall s, all digit s = true ->
            all kept_in_path s = true /\ has "/" s = false /\ has "." s = false /\
            has "i" s = false) as Hdigits.
  { intros s Hs.
    assert (all word s = true) as Hw
      by (eapply all_impl; [|done]; intros c Hc; by apply digit_chars).
    split; [eapply all_impl; [|exact Hw]; intros c Hc; by apply word_chars |].
    split; [eapply all_any; [|exact Hw]; intros c Hc; by apply word_chars |].
    split; [eapply all_any; [|exact Hw]; intros c Hc; by apply word_chars |].
    eapply all_any; [|exact Hs]. intros c Hc. by apply digit_chars. }
  destruct (Hdigits cat Hdcat) as (Hpcat & Hscat & _ & Hicat).
  destruct (Hdigits id Hdid) as (Hpid & Hsid & Hdotid & Hiid).
  apply extract_product_id_return. unfold extract_product_id_body.
  rewrite urlparse_link_of; [|done..|by rewrite !all_app, Hpcat, Hpid].
  cbn [path netloc].
  rewrite contains_absent
    by (unfold has in *; cbn [any]; rewrite !any_app, Hicat, Hiid; reflexivity).
  apply String.eqb_neq in Hother. rewrite Hother.
  assert (split "/" (cat +:+ "/" +:+ id +:+ ".html") = [cat; id +:+ ".html"]) as Hsegments.
  { unfold split.
    change (split_go "/" 0 "" (cat +:+ "/" +:+ id +:+ ".html"))
      with (split_go (chr "/") 0 "" (cat +:+ String "/" (id +:+ ".html"))).
    rewrite split_go_first by done.
    rewrite split_go_no_sep
      by (unfold has in *; rewrite any_app, Hsid; reflexivity).
    by rewrite !app_nil_l. }
  assert (split "/" (String "/" (cat +:+ "/" +:+ id +:+ ".html"))
          = [""; cat; id +:+ ".html"]) as ->.
  { unfold split in *.
    change (split_go "/" 0 "" (String "/" (cat +:+ "/" +:+ id +:+ ".html")))
      with (split_go (chr "/") 0 "" ("" +:+ String "/" (cat +:+ "/" +:+ id +:+ ".html"))).
    rewrite split_go_first by done.
    change (chr "/") with "/". by rewrite Hsegments. }
  cbn [length Nat.leb].
  assert (strip (Ascii.eqb "/") (String "/" (cat +:+ "/" +:+ id +:+ ".html"))
          = cat +:+ "/" +:+ id +:+ ".html") as ->.
  { unfold strip. cbn [lstrip]. rewrite Ascii.eqb_refl.
    assert (lstrip (Ascii.eqb "/") (cat +:+ "/" +:+ id +:+ ".html")
            = cat +:+ "/" +:+ id +:+ ".html") as ->.
    { destruct cat as [|c cat']; [done |]. rewrite app_cons. cbn [lstrip].
      unfold has in Hscat. cbn [any] in Hscat.
      apply orb_false_elim in Hscat as [-> _]. done. }
    change ".html" with (".htm" +:+ chr "l").
    rewrite <- !app_assoc. by rewrite rstrip_kept. }
  rewrite Hsegments. cbn [lookup list_lookup].
  rewrite endswith_app.
  unfold split.
  change (split_go "." 0 "" (id +:+ ".html"))
    with (split_go (chr ".") 0 "" (id +:+ String "." "html")).
  rewrite split_go_first by done.
  by rewrite app_nil_l.
Qed.

End ShapeFacts.

(** *** What the patterns denote *)

Module PatternFacts.
Import Str StrFacts DepthFacts ShapeFacts.

Lemma matches_cat r1 r2 s :
  matches (Cat r1 r2) s ->
  exists s1 s2, s = s1 +:+ s2 /\ matches r1 s1 /\ matches r2 s2.
Proof. intros H. inversion H; subst. by eexists _, _. Qed.

Lemma matches_opt r s : matches (Opt r) s -> s = "" \/ matches r s.
Proof. intros H. inversion H; subst; [by left | by right]. Qed.

Lemma matches_class p s :
  matches (Class p) s -> exists c, s = chr c /\ p c = true.
Proof. intros H. inversion H; subst. by eexists. Qed.

Lemma matches_many1 p s : matches (Many1 p) s -> s <> "" /\ all p s = true.
Proof.
  intros H. inversion H as [| | | | | | | |p' c t Hc Ht]; subst.
  split; [done |]. cbn [all]. by rewrite Hc, Ht.
Qed.

Lemma matches_http_s s : matches http_s s -> s = "http://" \/ s = "https://".
Proof.
  unfold http_s. intros H.
  apply matches_cat in H as (s1 & s2 & -> & H1 & H).
  apply matches_cat in H as (s3 & s4 & -> & H3 & H4).
  apply (LinkFacts.matches_lit "http") in H1 as ->.
  apply (LinkFacts.matches_lit "://") in H4 as ->.
  apply matches_opt in H3 as [-> | H3]; [by left |].
  inversion H3; subst. by right.
Qed.

Lemma lower_letter_host c : lower_letter c = true -> host_char c = true.
Proof.
  destruct c as [[] [] [] [] [] [] [] []]; vm_compute; intros H;
    try discriminate H; done.
Qed.

(** The hosts of the first two patterns. *)
Lemma matches_aliexpress_com s :
  matches aliexpress_com s ->
  all host_char s = true /\ s <> "s.click.aliexpress.com".
Proof.
  unfold aliexpress_com. intros H.
  apply matches_cat in H as (w & h & -> & Hw & Hh).
  assert (w = "" \/ w = "www.") as Hwww.
  { apply matches_opt in Hw as [-> | Hw]; [by left |].
    apply (LinkFacts.matches_lit "www.") in Hw as ->. by right. }
  assert (h = "aliexpress.com" \/
          exists a b, lower_letter a = true /\ lower_letter b = true /\
                      h = String a (String b ".aliexpress.com")) as Hhost.
  { inversion Hh as [| | | |r1 r2 s Hl|r1 r2 s Hr| | |]; subst.
    - apply (LinkFacts.matches_lit "aliexpress.com") in Hl as ->. by left.
    - apply matches_cat in Hr as (c & h' & -> & Hc & Hh').
      apply (LinkFacts.matches_lit "aliexpress.com") in Hh' as ->.
      apply matches_opt in Hc as [-> | Hc]; [by left |].
      apply matches_cat in Hc as (a & bc & -> & Ha & Hbc).
      apply matches_cat in Hbc as (b & d & -> & Hb & Hd).
      apply matches_class in Ha as (a' & -> & Ha).
      apply matches_class in Hb as (b' & -> & Hb).
      inversion Hd; subst.
      right. exists a', b'. by repeat split. }
  destruct Hhost as [-> | (a & b & Ha & Hb & ->)].
  - destruct Hwww as [-> | ->]; by split.
  - assert (all host_char (String a (String b ".aliexpress.com")) = true) as Hab.
    { cbn [all]. rewrite (lower_letter_host a Ha), (lower_letter_host b Hb).
      reflexivity. }
    destruct Hwww as [-> | ->]; (split; [by rewrite all_app, Hab |]);
      intros E; apply (f_equal String.length) in E; discriminate E.
Qed.

Lemma matches_item_html s :
  matches item_html s ->
  exists id, s = "/item/" +:+ id +:+ ".html" /\ id <> "" /\ all word id = true.
Proof.
  unfold item_html. intros H.
  apply matches_cat in H as (s1 & s2 & -> & H1 & H).
  apply matches_cat in H as (id & s4 & -> & Hid & H4).
  apply (LinkFacts.matches_lit "/item/") in H1 as ->.
  apply (LinkFacts.matches_lit ".html") in H4 as ->.
  apply matches_many1 in Hid as [Hne Hid].
  exists id. split; [done |]. split; [done |].
  eapply all_impl; [|exact Hid]. intros c Hc. cbv beta in Hc.
  apply orb_prop in Hc as [Hc | Hc]; [by apply digit_chars | done].
Qed.

(** A link of the first or the last pattern: scheme, host and
    [/item/<id>.html]. *)
Lemma item_pattern_link s host item :
  matches http_s s -> matches item_html item ->
  exists sch id,
    s +:+ host +:+ item = link_of sch host ("item/" +:+ id +:+ ".html") /\
    (sch = "http" \/ sch = "https") /\ id <> "" /\ all word id = true.
Proof.
  intros Hs Hitem.
  apply matches_item_html in Hitem as (id & -> & Hne & Hid).
  apply matches_http_s in Hs as [-> | ->];
    [exists "http", id | exists "https", id];
    (split; [reflexivity |]); split; eauto.
Qed.

End PatternFacts.

(** X3.  Every link that [extract_aliexpress_links] returns is a link of
    [click.aliexpress.com] (the third pattern), or [extract_product_id]
    finds its identifier, whatever room the stack has: a non-empty string
    of word characters, those of the class [\w] (letters, digits and the
    underscore). *)
Theorem extracted_links_have_ids (room : nat) (text : option string) :
  Forall (fun link =>
            matches click_pattern link \/
            exists id, extract_product_id room link = Some id /\
                       id <> "" /\ Str.all word id = true)
         (extract_aliexpress_links text).
Proof.
  apply Forall_forall. intros link Hin.
  apply ReFacts.extracted_link_matches in Hin as (pattern & Hp & Hm).
  unfold ALIEXPRESS_LINK_PATTERNS in Hp.
  apply elem_of_cons in Hp as [-> | Hp].
  { right.
    apply PatternFacts.matches_cat in Hm as (s & rest & -> & Hs & Hm).
    apply PatternFacts.matches_cat in Hm as (host & item & -> & Hhost & Hitem).
    apply PatternFacts.matches_aliexpress_com in Hhost as [Hhost _].
    destruct (PatternFacts.item_pattern_link s host item Hs Hitem)
      as (sch & id & -> & Hsch & Hne & Hid).
    exists id. split; [by apply ShapeFacts.extract_item_link | done]. }
  apply elem_of_cons in Hp as [-> | Hp].
  { right.
    apply PatternFacts.matches_cat in Hm as (s & rest & -> & Hs & Hm).
    apply PatternFacts.matches_cat in Hm as (host & rest' & -> & Hhost & Hm).
    apply PatternFacts.matches_cat in Hm as (slash & rest'' & -> & Hslash & Hm).
    apply PatternFacts.matches_cat in Hm as (cat & rest''' & -> & Hcat & Hm).
    apply PatternFacts.matches_cat in Hm as (slash' & rest4 & -> & Hslash' & Hm).
    apply PatternFacts.matches_cat in Hm as (id & html & -> & Hid & Hhtml).
    inversion Hslash; subst. inversion Hslash'; subst.
    apply (LinkFacts.matches_lit ".html") in Hhtml as ->.
    apply PatternFacts.matches_many1 in Hcat as [Hcne Hcat].
    apply PatternFacts.matches_many1 in Hid as [Hine Hid].
    apply PatternFacts.matches_aliexpress_com in Hhost as [Hhost Hother].
    exists id. split; [|split; [done |]].
    - apply PatternFacts.matches_http_s in Hs as [-> | ->].
      + by apply (ShapeFacts.extract_category_link room "http" host cat id); auto.
      + by apply (ShapeFacts.extract_category_link room "https" host cat id); auto.
    - eapply ShapeFacts.all_impl; [|exact Hid]. intros c Hc.
      by apply ShapeFacts.digit_chars. }
  apply elem_of_cons in Hp as [-> | Hp]; [by left |].
  apply elem_of_cons in Hp as [-> | Hp]; [|by apply elem_of_nil in Hp].
  right.
  apply PatternFacts.matches_cat in Hm as (s & rest & -> & Hs & Hm).
  apply PatternFacts.matches_cat in Hm as (w & rest' & -> & Hw & Hm).
  apply PatternFacts.matches_cat in Hm as (h & item & -> & Hh & Hitem).
  apply (LinkFacts.matches_lit "aliexpress.ru") in Hh as ->.
  assert (Str.all host_char (w +:+ "aliexpress.ru") = true) as Hhost.
  { apply PatternFacts.matches_opt in Hw as [-> | Hw]; [done |].
    by apply (LinkFacts.matches_lit "www.") in Hw as ->. }
  rewrite <- (StrFacts.app_assoc w).
  destruct (PatternFacts.item_pattern_link s (w +:+ "aliexpress.ru") item Hs Hitem)
    as (sch & id & -> & Hsch & Hne & Hid).
  exists id. split; [by apply ShapeFacts.extract_item_link | done].
Qed.

(** A letter beyond ASCII is a word character: the link is found, and
    its identifier with the letter. *)
Example extract_accented (room : nat) :
  extract_aliexpress_links (Some ("see " +:+ accented_link +:+ " now"))
  = [accented_link] /\
  is_valid_aliexpress_link accented_link = true /\
  extract_product_id room accented_link = Some accented_id.
Proof. destruct room; vm_compute; done. Qed.

Module DotFacts.
Import Str StrFacts.

(** The first piece of a split has no separator in it. *)
Lemma head_split_go c cur s h :
  has c cur = false -> head (split_go (chr c) 0 cur s) = Some h -> has c h = false.
Proof.
  revert cur. induction s as [|a s IH]; intros cur Hcur; cbn [split_go].
  - by intros [= <-].
  - unfold chr at 1. cbn [String.prefix].
    destruct (ascii_dec c a) as [<- | Hne].
    + assert (String.prefix "" s = true) as -> by (by destruct s).
      by intros [= <-].
    + fold (chr c). apply IH. unfold has in *.
      rewrite DepthFacts.any_app, Hcur. unfold chr. cbn [any].
      apply Ascii.eqb_neq in Hne. by rewrite Hne.
Qed.

Lemma body_return_dot link id :
  extract_product_id_body link = Return (Some id) -> has "." id = false.
Proof.
  unfold extract_product_id_body. intros H.
  destruct (urlparse link) as [parsed_url|]; [|done].
  destruct (contains "item" (path parsed_url)).
  { destruct (split "/item/" (path parsed_url) !! 1%nat) as [after|]; [|done].
    injection H as H. by eapply (head_split_go "." "" after). }
  destruct (String.eqb (netloc parsed_url) "s.click.aliexpress.com").
  { by destruct (parse_qs (query parsed_url) !! "dl_target_url") as [[|t rest]|]. }
  destruct (3 <=? _)%nat; [|done].
  destruct (_ !! 1%nat) as [second|]; [|done].
  destruct (endswith ".html" second); [|done].
  injection H as H. by eapply (head_split_go "." "" second).
Qed.

End DotFacts.

(** X4.  The identifier that [extract_product_id] returns has no dot in
    it, whatever the link: both forms of link end in
    [split('.')[0]], and a redirect link returns what its target
    returns. *)
Theorem extract_product_id_no_dot (room : nat) (link id : string) :
  extract_product_id room link = Some id -> Str.has "." id = false.
Proof.
  revert link. induction room as [|room IH]; intros link;
    rewrite extract_product_id_unfold;
    destruct (extract_product_id_body link) as [r|t] eqn:Hbody; try done.
  - intros ->. by eapply DotFacts.body_return_dot.
  - intros ->. by eapply DotFacts.body_return_dot.
  - apply IH.
Qed.

Lemma extract_product_id_no_dot_witness : Str.has "." "1234567890" = false.
Proof.
  apply (extract_product_id_no_dot 900
           "https://www.aliexpress.com/item/1234567890.html?x=1.5" "1234567890").
  vm_compute. reflexivity.
Defined.

(** ** The title helper *)

(** X5.  [sanitize_product_title] never returns an empty title, and
    sanitising a second time changes nothing: a title cut to 97
    characters and an ellipsis has 100 characters and is kept. *)
Theorem sanitize_product_title_idempotent (title : option string) :
  sanitize_product_title title <> "" /\
  sanitize_product_title (Some (sanitize_product_title title))
  = sanitize_product_title title.
Proof.
  destruct title as [[|c t]|]; [by split | | by split].
  unfold sanitize_product_title at 1 3.
  destruct (100 <? Str.len (String c t))%nat eqn:Hlong.
  - apply Nat.ltb_lt in Hlong.
    assert (Str.len (String.substring 0 97 (String c t) +:+ "...") = 100%nat) as Hlen.
    { rewrite StrFacts.len_app, substring_len. vm_compute (Str.len "..."). lia. }
    split.
    + intros E. rewrite E in Hlen. discriminate Hlen.
    + unfold sanitize_product_title.
      destruct (String.substring 0 97 (String c t) +:+ "...") as [|c' t'] eqn:E;
        [discriminate Hlen |].
      rewrite Hlen. apply Nat.ltb_lt in Hlong. by rewrite Hlong.
  - split; [done |]. unfold sanitize_product_title. by rewrite Hlong.
Qed.

(** ** The signed string *)

(** X6.  The signed string puts no mark between a key and its value, so
    the signature does not tell where the key ends: the parameter
    [key + a] with the value [b] and the parameter [key] with the value
    [a + b] have the same signature, whatever the secret and the digest. *)
Theorem signature_joins_key_and_value
        (secret : string) (md5_hexdigest : string -> string) (key a b : string) :
  generate_signature secret md5_hexdigest {[ key +:+ a := b ]}
  = generate_signature secret md5_hexdigest {[ key := a +:+ b ]}.
Proof.
  unfold generate_signature, sorted_items, py_str.
  rewrite !map_to_list_singleton. cbn.
  by rewrite !StrFacts.app_assoc.
Qed.

(** ** The product of the API and the reply *)

Module FloatFacts.

Lemma zero_spec : Prim2SF 0 = S754_zero false.
Proof. reflexivity. Qed.

Lemma infinity_spec : Prim2SF infinity = S754_infinity false.
Proof. reflexivity. Qed.

(** A float above zero is not zero. *)
Lemma above_zero_nonzero (x : float) :
  PrimFloat.ltb 0 x = true -> PrimFloat.eqb x 0 = false.
Proof.
  rewrite FloatAxioms.ltb_spec, FloatAxioms.eqb_spec, zero_spec.
  destruct (Prim2SF x) as [s|s| |s m e]; try done; by destruct s.
Qed.

(** What is below the infinity is at an infinite distance from it, and
    the quotient of two infinities is no number. *)
Lemma percent_of_infinity (x : float) :
  PrimFloat.ltb x infinity = true ->
  Prim2SF (((infinity - x) / infinity) * 100) = S754_nan.
Proof.
  rewrite FloatAxioms.ltb_spec, FloatAxioms.mul_spec, FloatAxioms.div_spec, FloatAxioms.sub_spec, infinity_spec.
  destruct (Prim2SF x) as [s|s| |s m e]; try done; by destruct s.
Qed.

End FloatFacts.

Section ProductDetails.

Variable json_loads : string -> option json.
Variable float_of_str : string -> option float.
Variable float_of_int : Z -> option float.

Lemma make_api_request_body exchange response :
  make_api_request exchange = Some response ->
  exchange = Response 200 (Some response) /\
  Py.contains "error_response" response = Some false.
Proof.
  unfold make_api_request. intros H.
  destruct exchange as [|status [body|]]; [done | |by destruct (negb _)].
  destruct (status =? 200)%Z eqn:Hstatus; [|done].
  apply Z.eqb_eq in Hstatus as ->. cbn in H.
  destruct (Py.contains "error_response" body) as [[|]|] eqn:Herror; try done.
  cbn in H. by injection H as <-.
Qed.

(** The fields that [get_product_details] sets itself. *)
Lemma parse_product_details_fields id response product :
  parse_product_details json_loads float_of_str float_of_int id response
  = Some product ->
  product_id product = id /\
  forall original, original_price product = Some original ->
    PrimFloat.ltb 0 original = true /\
    PrimFloat.ltb (price product) original = true.
Proof.
  unfold parse_product_details. intros H.
  repeat match type of H with
         | mbind _ ?m = Some _ =>
             destruct m eqn:?; cbn [mbind option_bind] in H; [|discriminate H]
         | (if negb ?b then None else _) = Some _ =>
             destruct b eqn:?; cbn [negb] in H; [|discriminate H]
         end.
  apply (inj Some) in H. subst product. cbn [product_id original_price price].
  split; [done |]. intros original.
  match goal with
  | |- (if ?positive && ?above then _ else _) = _ -> _ =>
      destruct positive eqn:Hpos; [|done]; destruct above eqn:Hless; [|done]
  end.
  cbn [andb]. by intros [= <-].
Qed.

End ProductDetails.

(** X7.  When [get_product_details] returns a product, the API answered
    with status 200 and a body without [error_response], the
    [product_id] of the product is the non-empty identifier that
    [extract_product_id] finds in the link, and an [original_price] is
    there only if it is above zero and above the price; so the test of
    [process_aliexpress_link] before the discount line holds for every
    original price that such a product has. *)
Theorem product_details_sound
        (json_loads : string -> option json)
        (float_of_str : string -> option float) (float_of_int : Z -> option float)
        (room : nat) (exchange : http_exchange) (product_url : string)
        (product : ProductDetails) :
  get_product_details json_loads float_of_str float_of_int room exchange product_url
  = Some product ->
  (exists body, exchange = Response 200 (Some body) /\
                Py.contains "error_response" body = Some false) /\
  extract_product_id room product_url = Some (product_id product) /\
  product_id product <> "" /\
  (forall original, original_price product = Some original ->
     PrimFloat.ltb 0 original = true /\
     PrimFloat.ltb (price product) original = true) /\
  shows_discount product = original_price product.
Proof.
  unfold get_product_details. intros H.
  destruct (extract_product_id room product_url) as [[|c id]|] eqn:Hid; try done.
  destruct (make_api_request exchange) as [response|] eqn:Hrequest; [|done].
  destruct (Py.truthy response); [|done]. cbn [negb] in H.
  apply make_api_request_body in Hrequest as [-> Herror].
  apply parse_product_details_fields in H as [Hpid Hprice].
  split; [by eexists |]. rewrite Hpid.
  split; [done |]. split; [done |]. split; [done |].
  unfold shows_discount.
  destruct (original_price product) as [original|]; [|done].
  destruct (Hprice original eq_refl) as [Hpos Hless].
  by rewrite (FloatFacts.above_zero_nonzero original Hpos), Hless.
Qed.

Lemma product_details_sound_witness :
  extract_product_id 900 "https://www.aliexpress.com/item/1234567890.html"
  = Some (product_id sample_product) /\
  product_id sample_product <> "" /\
  (forall original, original_price sample_product = Some original ->
     PrimFloat.ltb 0 original = true /\
     PrimFloat.ltb (price sample_product) original = true) /\
  shows_discount sample_product = original_price sample_product.
Proof.
  apply (product_details_sound sample_json_loads sample_float_of_str (fun _ => None)
           900 sample_exchange "https://www.aliexpress.com/item/1234567890.html"
           sample_product).
  vm_compute. reflexivity.
Defined.

(** X8.  An original price that is infinite (the API sent [inf] or a
    number too large for a double) ends the reply in the message that
    something went wrong: the product passes the test before the
    discount line, the percentage is the quotient of two infinities, and
    [round] raises on it. *)
Theorem infinite_original_price_fails
        (float_str : float -> string) (json_repr : json -> string)
        (product : ProductDetails) (affiliate_link : json) :
  original_price product = Some infinity ->
  PrimFloat.ltb (price product) infinity = true ->
  process_aliexpress_link float_str json_repr (Some product) affiliate_link
  = SomethingWentWrong.
Proof.
  intros Horiginal Hless. unfold process_aliexpress_link.
  rewrite response_text_lines. unfold shows_discount.
  rewrite Horiginal, Hless.
  replace (PrimFloat.eqb infinity 0) with false by reflexivity.
  cbn [negb andb]. unfold discount_percent, Py.round.
  by rewrite (FloatFacts.percent_of_infinity (price product) Hless).
Qed.

Lemma infinite_original_price_fails_witness :
  process_aliexpress_link (fun _ => "?") (fun _ => "?") (Some priceless_product)
    (JStr "https://s.click.aliexpress.com/e/_xyz")
  = SomethingWentWrong.
Proof.
  apply (infinite_original_price_fails (fun _ => "?") (fun _ => "?")
           priceless_product (JStr "https://s.click.aliexpress.com/e/_xyz")).
  - reflexivity.
  - vm_compute. reflexivity.
Defined.

(** ** Requests in a minute, and how long a call is held *)

Section LimiterBounds.

Local Open Scope Q_scope.

Lemma filter_none {A} (P : A -> Prop) `{!forall x, Decision (P x)} (l : list A) :
  (forall a, a ∈ l -> ~ P a) -> filter P l = [].
Proof.
  induction l as [|x l IH]; intros Hnone; [done |].
  rewrite filter_cons_False by (apply Hnone; left).
  apply IH. intros a Ha. apply Hnone. by right.
Qed.

Lemma stamps_spaced_tail cap x stamps :
  stamps_spaced cap (x :: stamps) -> stamps_spaced cap stamps.
Proof. intros H i first last Hf Hl. by apply (H (S i) first last). Qed.

(** In a sorted history whose timestamps are spaced, no sixty seconds
    hold more than [cap] of them. *)
Lemma dispatched_within_spaced cap from stamps :
  StronglySorted Qle stamps -> stamps_spaced cap stamps ->
  (length (dispatched_within from stamps) <= cap)%nat.
Proof.
  unfold dispatched_within. intros Hsorted.
  induction Hsorted as [|x l Hsorted IH Hall]; intros Hspaced; [simpl; lia |].
  destruct (Qle_bool from x) eqn:Hfrom.
  - apply Qle_bool_iff in Hfrom.
    rewrite <- (take_drop cap (x :: l)), filter_app, length_app.
    rewrite (filter_none _ (drop cap (x :: l))).
    + pose proof (length_filter
        (fun ts => Is_true (Qle_bool from ts && Qltb ts (from + 60)))
        (take cap (x :: l))) as Hlen.
      pose proof (firstn_le_length cap (x :: l)). simpl in *. lia.
    + intros b Hb Hin.
      apply Is_true_true, andb_prop in Hin as [_ Hin]. apply Qltb_lt in Hin.
      destruct (drop cap (x :: l)) as [|y rest] eqn:Hdrop;
        [by apply elem_of_nil in Hb |].
      assert ((x :: l) !! (0 + cap)%nat = Some y) as Hy.
      { rewrite Nat.add_0_l, <- (Nat.add_0_r cap), <- lookup_drop. by rewrite Hdrop. }
      pose proof (Hspaced 0%nat x y eq_refl Hy) as Hxy.
      assert (y <= b) as Hyb.
      { assert (StronglySorted Qle (y :: rest)) as Hs.
        { rewrite <- Hdrop. apply (StronglySorted_app_1_r _ (take cap (x :: l))).
          rewrite take_drop. by constructor. }
        apply elem_of_cons in Hb as [-> | Hb]; [lra |].
        apply StronglySorted_inv in Hs as [_ Hs].
        rewrite Forall_forall in Hs. by apply Hs. }
      lra.
  - rewrite filter_cons_False by (rewrite Hfrom; simpl; tauto).
    apply IH. by eapply stamps_spaced_tail.
Qed.

(** One call under the invariant: the window it leaves, and the time it
    takes. *)
Lemma respect_rate_limit_bounds cap t st history :
  (1 <= cap)%nat -> timing_ok t -> limiter_inv cap history st ->
  exists st',
    respect_rate_limit_at cap t st = Some st' /\
    (length (request_timestamps st') <= S cap)%nat /\
    clock st + idle t + late t <= clock st' /\
    clock st' <= clock st + idle t + late t + 60.
Proof.
  intros Hcap [Hidle Hlate] [Hsorted Hclock (old & Hhist & Hold) Hspaced].
  unfold respect_rate_limit_at. cbv zeta.
  set (current_time := clock st + idle t).
  assert (StronglySorted Qle (request_timestamps st)) as Hws.
  { rewrite Hhist in Hsorted. by apply StronglySorted_app_1_r in Hsorted. }
  destruct (purge_sorted current_time _ Hws) as (dropped & Hw & Hdropped & Hkept).
  set (kept := filter (fun ts => Is_true (Qltb (current_time - ts) 60))
                      (request_timestamps st)) in *.
  assert (history = ((old ++ dropped) ++ kept)%list) as Hsplit.
  { rewrite Hhist. rewrite Hw at 1. by rewrite <- app_assoc. }
  (* no more than [cap] timestamps are kept *)
  assert (length kept <= cap)%nat as Hfew.
  { destruct (decide (length kept <= cap)%nat) as [|Hmany]; [done |].
    exfalso. destruct kept as [|x kept'] eqn:Ek; [simpl in Hmany; lia |].
    assert (history !! length (old ++ dropped)%list = Some x) as Hx.
    { rewrite Hsplit. by rewrite list_lookup_middle. }
    destruct (lookup_lt_is_Some_2 history (length (old ++ dropped)%list + cap))
      as [b Hb].
    { rewrite Hsplit at 1. rewrite !length_app. simpl in *. lia. }
    pose proof (Hspaced _ _ _ Hx Hb) as Hxb.
    assert (b <= clock st) as Hbc by (apply Hclock; by eapply list_elem_of_lookup_2).
    assert (current_time - x < 60) as Hxk by (apply Hkept; left).
    unfold current_time in Hxk. lra. }
  (* the oldest timestamp kept is not after the call *)
  assert (forall oldest, head kept = Some oldest -> oldest <= current_time) as Hpast.
  { intros oldest Hhead.
    assert (oldest ∈ history) as Hin.
    { rewrite Hsplit, elem_of_app. right. destruct kept; [done |].
      injection Hhead as ->. left. }
    specialize (Hclock oldest Hin). unfold current_time. lra. }
  destruct (cap <=? length kept)%nat eqn:Hfull.
  - apply Nat.leb_le in Hfull.
    destruct kept as [|oldest kept'] eqn:Ek; [simpl in Hfull; lia |].
    specialize (Hpast oldest eq_refl). cbn [head mbind option_bind].
    eexists. split; [done |]. cbn [request_timestamps clock].
    split; [rewrite length_app; simpl in *; lia |].
    destruct (Qltb 0 (60 - (current_time - oldest))) eqn:Hwait.
    + apply Qltb_lt in Hwait. unfold current_time in *. split; lra.
    + apply Qltb_ge in Hwait. unfold current_time in *. split; lra.
  - cbn [mbind option_bind]. eexists. split; [done |].
    cbn [request_timestamps clock].
    split; [rewrite length_app; simpl in *; lia |].
    unfold current_time. split; lra.
Qed.

End LimiterBounds.

(** X9.  With a cap of [cap] requests a minute, no sixty seconds hold
    more than [cap] of the timestamps that the calls of
    [respect_rate_limit] record: of the requests made since the start of
    the process, at most [cap] are dispatched in the minute that starts
    at [from], whenever that is. *)
Theorem rate_limit_per_minute
        (cap : nat) (timings : list call_timing) (start from : Q) :
  (1 <= cap)%nat -> Forall timing_ok timings ->
  exists st stamps,
    respect_rate_limit_calls cap timings (limiter_at start) = Some (st, stamps) /\
    (length (dispatched_within from stamps) <= cap)%nat.
Proof.
  intros Hcap Hok.
  destruct (respect_rate_limit_calls_keep cap timings (limiter_at start) []
              Hcap Hok (limiter_at_inv cap start))
    as (st & stamps & Hrun & Hlen & Hinv).
  exists st, stamps. split; [done |].
  apply dispatched_within_spaced.
  - apply (inv_sorted _ _ _ Hinv).
  - apply (inv_spaced _ _ _ Hinv).
Qed.

Lemma rate_limit_per_minute_witness :
  exists st stamps,
    respect_rate_limit_calls MAX_REQUESTS_PER_MINUTE
      (replicate 40 {| idle := 1 # 100; late := 0 |}) (limiter_at 1700000000)
    = Some (st, stamps) /\
    (length (dispatched_within 1700000000 stamps) <= MAX_REQUESTS_PER_MINUTE)%nat.
Proof.
  apply (rate_limit_per_minute MAX_REQUESTS_PER_MINUTE
           (replicate 40 {| idle := 1 # 100; late := 0 |}) 1700000000 1700000000).
  - unfold MAX_REQUESTS_PER_MINUTE. lia.
  - apply Forall_replicate. split; vm_compute; discriminate.
Defined.

(** X10.  A call of [respect_rate_limit] is held for sixty seconds at
    most: after any calls since the start of the process, the next call
    returns, its timestamp is no more than sixty seconds after the time
    at which it would have ended without the limit, and the list of
    timestamps that it leaves has [cap + 1] entries at most. *)
Theorem rate_limit_wait_bounded
        (cap : nat) (timings : list call_timing) (t : call_timing) (start : Q) :
  (1 <= cap)%nat -> Forall timing_ok timings -> timing_ok t ->
  exists st stamps st',
    respect_rate_limit_calls cap timings (limiter_at start) = Some (st, stamps) /\
    respect_rate_limit_at cap t st = Some st' /\
    (length (request_timestamps st') <= S cap)%nat /\
    (clock st + idle t + late t <= clock st')%Q /\
    (clock st' <= clock st + idle t + late t + 60)%Q.
Proof.
  intros Hcap Hok Ht.
  destruct (respect_rate_limit_calls_keep cap timings (limiter_at start) []
              Hcap Hok (limiter_at_inv cap start))
    as (st & stamps & Hrun & Hlen & Hinv).
  destruct (respect_rate_limit_bounds cap t st _ Hcap Ht Hinv) as (st' & Hcall & Hb).
  by exists st, stamps, st'.
Qed.

Lemma rate_limit_wait_bounded_witness :
  exists st stamps st',
    respect_rate_limit_calls MAX_REQUESTS_PER_MINUTE
      (replicate 30 {| idle := 1 # 100; late := 0 |}) (limiter_at 1700000000)
    = Some (st, stamps) /\
    respect_rate_limit_at MAX_REQUESTS_PER_MINUTE {| idle := 1 # 100; late := 1 # 1000 |} st
    = Some st' /\
    (length (request_timestamps st') <= S MAX_REQUESTS_PER_MINUTE)%nat /\
    (clock st + idle {| idle := 1 # 100; late := 1 # 1000 |}
     + late {| idle := 1 # 100; late := 1 # 1000 |} <= clock st')%Q /\
    (clock st' <= clock st + idle {| idle := 1 # 100; late := 1 # 1000 |}
     + late {| idle := 1 # 100; late := 1 # 1000 |} + 60)%Q.
Proof.
  apply (rate_limit_wait_bounded MAX_REQUESTS_PER_MINUTE
           (replicate 30 {| idle := 1 # 100; late := 0 |})
           {| idle := 1 # 100; late := 1 # 1000 |} 1700000000).
  - unfold MAX_REQUESTS_PER_MINUTE. lia.
  - apply Forall_replicate. split; vm_compute; discriminate.
  - split; vm_compute; discriminate.
Defined.

(** ** The statistics *)

Module StatsFacts.

Lemma filter_length_le {A} (P Q : A -> Prop)
      `{!forall x, Decision (P x)} `{!forall x, Decision (Q x)} (l : list A) :
  (forall a, P a -> Q a) -> (length (filter P l) <= length (filter Q l))%nat.
Proof.
  intros HPQ. induction l as [|x l IH]; [done |].
  destruct (decide (P x)) as [HP | HP].
  - rewrite (filter_cons_True P) by done.
    rewrite (filter_cons_True Q) by (by apply HPQ). simpl. lia.
  - rewrite (filter_cons_False P) by done.
    destruct (decide (Q x)).
    + rewrite (filter_cons_True Q) by done. simpl. lia.
    + by rewrite (filter_cons_False Q) by done.
Qed.

Lemma active_since_le since since' (last_active : gmap Z Z) :
  (since' <= since)%Z ->
  (active_since since last_active <= active_since since' last_active)%Z.
Proof.
  intros Hle. unfold active_since. apply inj_le.
  apply filter_length_le. intros ts. lia.
Qed.

Lemma active_since_size since (last_active : gmap Z Z) :
  (0 <= active_since since last_active <= Z.of_nat (size last_active))%Z.
Proof.
  unfold active_since. split; [lia |]. apply inj_le.
  rewrite <- (length_map_to_list last_active), <- (length_fmap snd).
  apply length_filter.
Qed.


(** The events of an action type are as many as the calls that log it. *)
Lemma events_logged a calls :
  Z.of_nat (length (events_of_action a (event_of <$> calls))) = logged a calls.
Proof.
  unfold logged, events_of_action. f_equal.
  induction calls as [|call calls IH]; [done |].
  rewrite fmap_cons.
  destruct (decide (log_action call = a)) as [Ha | Ha].
  - rewrite !filter_cons_True by done. simpl. by rewrite IH.
  - by rewrite !filter_cons_False by done.
Qed.

Lemma empty_tables_agree : tables_agree empty_analytics.
Proof. split; intros; unfold empty_analytics; simpl; by rewrite lookup_empty. Qed.

(** The count of an action type after calls on the empty tables. *)
Lemma count_logged a calls :
  default 0%Z (action_counts (log_user_actions calls empty_analytics) !! a)
  = logged a calls.
Proof.
  destruct (log_user_actions_agree calls _ empty_tables_agree) as [Hcount _].
  rewrite Hcount, log_user_actions_events. apply events_logged.
Qed.

(** The users of the table are the users of the calls. *)
Lemma users_logged calls :
  size (user_last_active (log_user_actions calls empty_analytics))
  = length (remove_dups (log_user <$> calls)).
Proof.
  destruct (log_user_actions_agree calls _ empty_tables_agree) as [_ Hlast].
  rewrite <- (size_dom (D := gset Z)).
  rewrite <- (size_list_to_set (C := gset Z)) by apply NoDup_remove_dups.
  f_equal. apply leibniz_equiv. intros u.
  rewrite elem_of_dom, elem_of_list_to_set, elem_of_remove_dups, Hlast.
  rewrite fmap_is_Some, last_is_Some, log_user_actions_events.
  unfold events_of_user. simpl. split.
  - intros Hne. destruct (filter _ _) as [|e l] eqn:Hf; [done |].
    assert (e ∈ filter (fun e => user_id e = u) (event_of <$> calls)) as He
      by (rewrite Hf; left).
    apply list_elem_of_filter in He as [<- He].
    apply list_elem_of_fmap in He as (call & -> & Hcall).
    apply list_elem_of_fmap. by exists call.
  - intros Hu. apply list_elem_of_fmap in Hu as (call & -> & Hcall).
    intros Hnil.
    assert (event_of call ∈ filter (fun e => user_id e = log_user call)
                                   (event_of <$> calls)) as He.
    { apply list_elem_of_filter. split; [done |].
      apply list_elem_of_fmap. by exists call. }
    rewrite Hnil in He. by apply elem_of_nil in He.
Qed.

End StatsFacts.

(** X11.  In the statistics, whatever the tables and the time, the users
    active today are among the users active this week, and these among
    all users: [0 <= active_today <= active_this_week <= total_users]. *)
Theorem statistics_ordered (now : Z) (st : analytics) :
  let stats := get_statistics now st in
  (0 <= active_today stats)%Z /\
  (active_today stats <= active_this_week stats)%Z /\
  (active_this_week stats <= total_users stats)%Z.
Proof.
  cbv zeta. unfold get_statistics.
  cbn [active_today active_this_week total_users].
  split; [apply StatsFacts.active_since_size |].
  split; [apply StatsFacts.active_since_le; lia | apply StatsFacts.active_since_size].
Qed.

(** X12.  After any calls of [log_user_action] on the empty tables the
    statistics count the calls: the requests are the calls that logged
    [message_received], the successful conversions those that logged
    [link_processed_successfully], the failed ones those that logged
    [error_processing_link] or [product_not_found], and the users are the
    different users of the calls. *)
Theorem statistics_count_calls (calls : list logging) (now : Z) :
  let stats := get_statistics now (log_user_actions calls empty_analytics) in
  total_requests stats = logged "message_received" calls /\
  successful_conversions stats = logged "link_processed_successfully" calls /\
  failed_conversions stats
  = (logged "error_processing_link" calls + logged "product_not_found" calls)%Z /\
  total_users stats = Z.of_nat (length (remove_dups (log_user <$> calls))).
Proof.
  cbv zeta. unfold get_statistics.
  cbn [total_requests successful_conversions failed_conversions total_users].
  rewrite !StatsFacts.count_logged, StatsFacts.users_logged. done.
Qed.

(** ** The handlers *)

Section HandlerFacts.

Variable ADMIN_USER_IDS : list Z.
Variable json_loads : string -> option json.
Variable float_of_str : string -> option float.
Variable float_of_int : Z -> option float.
Variable float_str : float -> string.
Variable json_repr : json -> string.

Lemma logged_app a calls calls' :
  logged a (calls ++ calls') = (logged a calls + logged a calls')%Z.
Proof. unfold logged. rewrite filter_app, length_app. lia. Qed.

Lemma log_user_actions_app calls calls' st :
  log_user_actions (calls ++ calls') st
  = log_user_actions calls' (log_user_actions calls st).
Proof. apply foldl_app. Qed.

(** The runs one after the other make the calls of each, in order. *)
Lemma handle_all_calls runs st :
  handle_all ADMIN_USER_IDS json_loads float_of_str float_of_int float_str json_repr
             runs st
  = log_user_actions
      (runs ≫= handler_calls ADMIN_USER_IDS json_loads float_of_str float_of_int
                             float_str json_repr)
      st.
Proof.
  unfold handle_all. revert st.
  induction runs as [|run runs IH]; intros st; [reflexivity |].
  cbn [foldl]. rewrite IH. unfold handle.
  rewrite bind_cons, log_user_actions_app. reflexivity.
Qed.

(** What [process_aliexpress_link] logs is nothing, or one of the three
    outcomes. *)
Lemma link_actions_one d reply :
  link_actions d reply = [] \/
  link_actions d reply = ["link_processed_successfully"] \/
  link_actions d reply = ["error_processing_link"] \/
  link_actions d reply = ["product_not_found"].
Proof.
  unfold link_actions.
  destruct (note_sent d), (reply_sent d), (apology_sent d), reply; cbn; auto.
Qed.

(** In the calls of one run, the conversions are no more than the
    requests. *)
Lemma handler_calls_conversions run :
  let calls := handler_calls ADMIN_USER_IDS json_loads float_of_str float_of_int
                             float_str json_repr run in
  (logged "link_processed_successfully" calls +
   (logged "error_processing_link" calls + logged "product_not_found" calls)
   <= logged "message_received" calls)%Z.
Proof.
  cbv zeta. destruct run as [user m|user m|user m|user text m room pe le d m'];
    cbn [handler_calls].
  - vm_compute. discriminate.
  - vm_compute. discriminate.
  - destruct (stats_denied ADMIN_USER_IDS user); vm_compute; discriminate.
  - destruct (process_message (Some text)) as [| |link];
      [vm_compute; discriminate.. |].
    destruct (link_actions_one d
                (process_aliexpress_link float_str json_repr
                   (get_product_details json_loads float_of_str float_of_int room pe
                                        link)
                   (convert_to_affiliate_link json_loads le link)))
      as [-> | [-> | [-> | ->]]]; vm_compute; discriminate.
Qed.

Lemma runs_conversions runs :
  let calls := runs ≫= handler_calls ADMIN_USER_IDS json_loads float_of_str
                                     float_of_int float_str json_repr in
  (logged "link_processed_successfully" calls +
   (logged "error_processing_link" calls + logged "product_not_found" calls)
   <= logged "message_received" calls)%Z.
Proof.
  cbv zeta. induction runs as [|run runs IH]; [done |].
  rewrite bind_cons, !logged_app.
  pose proof (handler_calls_conversions run) as Hrun. cbv zeta in Hrun. lia.
Qed.

End HandlerFacts.

(** X13.  Whatever runs of the handlers a process has served since it
    started with empty tables, and whatever the API and Telegram did, the
    statistics show no more conversions, successful and failed together,
    than requests: [process_aliexpress_link] logs one outcome at most,
    and only after [process_message] logged the request. *)
Theorem conversions_within_requests
        (ADMIN_USER_IDS : list Z)
        (json_loads : string -> option json)
        (float_of_str : string -> option float) (float_of_int : Z -> option float)
        (float_str : float -> string) (json_repr : json -> string)
        (runs : list handler_run) (now : Z) :
  let st := handle_all ADMIN_USER_IDS json_loads float_of_str float_of_int
                       float_str json_repr runs empty_analytics in
  let stats := get_statistics now st in
  (0 <= successful_conversions stats)%Z /\
  (0 <= failed_conversions stats)%Z /\
  (successful_conversions stats + failed_conversions stats
   <= total_requests stats)%Z.
Proof.
  cbv zeta. rewrite handle_all_calls. unfold get_statistics.
  cbn [total_requests successful_conversions failed_conversions].
  rewrite !StatsFacts.count_logged.
  pose proof (runs_conversions ADMIN_USER_IDS json_loads float_of_str float_of_int
                float_str json_repr runs) as Hruns.
  cbv zeta in Hruns. unfold logged in *. lia.
Qed.



(** ** The files, and a process that starts with them *)

Module RestartFacts.

Lemma run_length calls :
  length (user_actions (log_user_actions calls empty_analytics)) = length calls.
Proof. rewrite log_user_actions_events. simpl. by rewrite length_fmap. Qed.

Lemma run_snoc calls call st :
  log_user_actions (calls ++ [call]) st
  = log_user_action call (log_user_actions calls st).
Proof. unfold log_user_actions. by rewrite foldl_snoc. Qed.

(** The call that makes the log a multiple of a hundred long writes the
    files; no other call touches them. *)
Lemma flush_at calls call :
  log_written call = 3%nat -> (S (length calls) mod 100 = 0)%nat ->
  files (log_user_actions (calls ++ [call]) empty_analytics)
  = files_of (log_user_actions (calls ++ [call]) empty_analytics).
Proof.
  intros Hwritten Hfull. rewrite run_snoc.
  unfold log_user_action. cbv zeta. cbn [user_actions].
  rewrite length_app, run_length. cbn [length].
  replace (length calls + 1)%nat with (S (length calls)) by lia.
  rewrite Hfull. cbn [Nat.eqb].
  unfold save_analytics_to_file. rewrite Hwritten. reflexivity.
Qed.

Lemma no_flush calls call :
  (S (length calls) mod 100 <> 0)%nat ->
  files (log_user_actions (calls ++ [call]) empty_analytics)
  = files (log_user_actions calls empty_analytics).
Proof.
  intros Hpart. rewrite run_snoc.
  unfold log_user_action. cbv zeta. cbn [user_actions].
  rewrite length_app, run_length. cbn [length].
  replace (length calls + 1)%nat with (S (length calls)) by lia.
  apply Nat.eqb_neq in Hpart. rewrite Hpart. reflexivity.
Qed.

(** A process that starts with the files of a flush has the tables of
    the flush. *)
Lemma start_process_files_of st :
  files st = files_of st -> start_process 3 (files st) = st.
Proof.
  intros Hfiles. rewrite Hfiles at 1. unfold start_process, load_analytics_from_file.
  cbn. destruct st as [actions counts last_active f]. cbn in *. by rewrite Hfiles.
Qed.

Lemma start_process_last_flush calls :
  Forall (fun call => log_written call = 3%nat) calls ->
  start_process 3 (files (log_user_actions calls empty_analytics))
  = log_user_actions (take (100 * (length calls / 100)) calls) empty_analytics.
Proof.
  induction calls as [|call calls IH] using rev_ind; intros Hwritten; [reflexivity |].
  apply Forall_app in Hwritten as [Hcalls Hcall].
  apply Forall_inv in Hcall.
  rewrite length_app. cbn [length].
  replace (length calls + 1)%nat with (S (length calls)) by lia.
  pose proof (Nat.div_mod_eq (S (length calls)) 100) as Hnext.
  pose proof (Nat.div_mod_eq (length calls) 100) as Hnow.
  pose proof (Nat.mod_upper_bound (S (length calls)) 100 ltac:(lia)) as Hnext_lt.
  pose proof (Nat.mod_upper_bound (length calls) 100 ltac:(lia)) as Hnow_lt.
  destruct (decide (S (length calls) mod 100 = 0)%nat) as [Hfull | Hpart].
  - replace (100 * (S (length calls) / 100))%nat with (length (calls ++ [call]))
      by (rewrite length_app; cbn [length]; lia).
    rewrite firstn_all. apply start_process_files_of. by apply flush_at.
  - rewrite no_flush by done. rewrite IH by done.
    replace (100 * (S (length calls) / 100))%nat
      with (100 * (length calls / 100))%nat by lia.
    by rewrite take_app_le by lia.
Qed.

End RestartFacts.

(** X15.  The files lag the tables by less than a hundred calls.  When
    every write goes through, a process that starts with the files that
    a first process left after its calls of [log_user_action] has the
    tables that the first process had at its last full hundred of
    calls: its log holds the events of these calls, in order, its counts
    and last-active entries agree with that log, and fewer than a hundred
    calls, the last ones, are lost. *)
Theorem restart_resumes_last_flush (calls : list logging) :
  Forall (fun call => log_written call = 3%nat) calls ->
  let st := log_user_actions calls empty_analytics in
  let kept := (100 * (length calls / 100))%nat in
  start_process 3 (files st) = log_user_actions (take kept calls) empty_analytics /\
  user_actions (start_process 3 (files st)) = event_of <$> take kept calls /\
  tables_agree (start_process 3 (files st)) /\
  (length calls - kept < 100)%nat.
Proof.
  intros Hwritten. cbv zeta.
  rewrite RestartFacts.start_process_last_flush by done.
  split; [done |].
  split; [by rewrite log_user_actions_events |].
  split; [apply log_user_actions_agree, StatsFacts.empty_tables_agree |].
  pose proof (Nat.div_mod_eq (length calls) 100).
  pose proof (Nat.mod_upper_bound (length calls) 100 ltac:(lia)). lia.
Qed.

Lemma restart_resumes_last_flush_witness :
  start_process 3 (files (log_user_actions (replicate 250 sample_call) empty_analytics))
  = log_user_actions (take (100 * (length (replicate 250 sample_call) / 100))
                           (replicate 250 sample_call))
                     empty_analytics /\
  user_actions
    (start_process 3
       (files (log_user_actions (replicate 250 sample_call) empty_analytics)))
  = event_of <$> take (100 * (length (replicate 250 sample_call) / 100))
                      (replicate 250 sample_call) /\
  tables_agree
    (start_process 3
       (files (log_user_actions (replicate 250 sample_call) empty_analytics))) /\
  (length (replicate 250 sample_call)
   - 100 * (length (replicate 250 sample_call) / 100) < 100)%nat.
Proof.
  apply (restart_resumes_last_flush (replicate 250 sample_call)).
  apply Forall_replicate. reflexivity.
Defined.

(** ** Short links *)

Module ShortFacts.
Import Str StrFacts.

Lemma matches_lit_self s : matches (lit s) s.
Proof.
  induction s as [|c s IH]; [constructor |].
  apply (m_cat (Chr c) (lit s) (chr c) s); [constructor | done].
Qed.

Lemma path_char_no_space c : path_char c = true -> negb (space c) = true.
Proof.
  destruct c as [[] [] [] [] [] [] [] []]; vm_compute; intros H;
    try discriminate H; done.
Qed.

(** A link of [s.click.aliexpress.com] is in the language of the third
    pattern. *)
Lemma click_link_matches sch p :
  sch = "http" \/ sch = "https" -> p <> "" -> all path_char p = true ->
  matches click_pattern (link_of sch "s.click.aliexpress.com" p).
Proof.
  intros Hsch Hne Hpath.
  assert (matches http_s (sch +:+ "://")) as Hhttp.
  { unfold http_s. destruct Hsch as [-> | ->].
    - apply (m_cat _ _ "http" ("" +:+ "://")); [apply matches_lit_self |].
      apply m_cat; [apply m_opt_none | apply (matches_lit_self "://")].
    - apply (m_cat _ _ "http" ("s" +:+ "://")); [apply matches_lit_self |].
      apply m_cat; [apply m_opt_some, m_chr | apply (matches_lit_self "://")]. }
  assert (matches (Many1 (fun c => negb (space c))) p) as Hp.
  { destruct p as [|c p']; [done |]. cbn [all] in Hpath.
    apply andb_prop in Hpath as [Hc Hp'].
    apply m_many1; [by apply path_char_no_space |].
    eapply ShapeFacts.all_impl; [|exact Hp']. apply path_char_no_space. }
  replace (link_of sch "s.click.aliexpress.com" p)
    with ((sch +:+ "://") +:+ "s." +:+ "click.aliexpress.com/" +:+ p)
    by (unfold link_of; by rewrite app_assoc).
  unfold click_pattern.
  apply m_cat; [done |]. apply m_cat; [apply m_opt_some, (matches_lit_self "s.") |].
  apply m_cat; [apply (matches_lit_self "click.aliexpress.com/") | done].
Qed.

(** [extract_product_id] finds nothing in it when the path has no [item]
    in it: there is no query to look into. *)
Lemma click_link_no_id room sch p :
  sch = "http" \/ sch = "https" -> all path_char p = true ->
  contains "item" p = false ->
  extract_product_id room (link_of sch "s.click.aliexpress.com" p) = None.
Proof.
  intros Hsch Hpath Hitem.
  apply ShapeFacts.extract_product_id_return. unfold extract_product_id_body.
  rewrite ShapeFacts.urlparse_link_of;
    [|done..|eapply ShapeFacts.all_impl; [apply ShapeFacts.path_char_kept | done]].
  cbn [path netloc query].
  assert (contains "item" (String "/" p) = false) as ->.
  { cbn [contains]. rewrite Hitem. reflexivity. }
  reflexivity.
Qed.

End ShortFacts.

(** X16.  A link of [s.click.aliexpress.com] with a path and nothing
    after it, the path without [item] in it, passes
    [is_valid_aliexpress_link], but [extract_product_id] finds no
    identifier in it; so [get_product_details] asks the API nothing, and
    [process_aliexpress_link] answers that the product was not found,
    whatever the API would have said. *)
Theorem short_link_not_found
        (json_loads : string -> option json)
        (float_of_str : string -> option float) (float_of_int : Z -> option float)
        (float_str : float -> string) (json_repr : json -> string)
        (room : nat) (exchange : http_exchange) (affiliate_link : json)
        (sch p : string) :
  sch = "http" \/ sch = "https" ->
  p <> "" -> Str.all path_char p = true -> Str.contains "item" p = false ->
  let link := link_of sch "s.click.aliexpress.com" p in
  is_valid_aliexpress_link link = true /\
  extract_product_id room link = None /\
  process_aliexpress_link float_str json_repr
    (get_product_details json_loads float_of_str float_of_int room exchange link)
    affiliate_link
  = ProductNotFound.
Proof.
  intros Hsch Hne Hpath Hitem link.
  assert (extract_product_id room link = None) as Hid
    by (by apply ShortFacts.click_link_no_id).
  split; [|split; [done |]].
  - apply (ReFacts.matching_link_valid click_pattern).
    + unfold ALIEXPRESS_LINK_PATTERNS, click_pattern. do 2 right. left.
    + by apply ShortFacts.click_link_matches.
  - unfold get_product_details. by rewrite Hid.
Qed.

Lemma short_link_not_found_witness :
  is_valid_aliexpress_link (link_of "https" "s.click.aliexpress.com" "e/_DmOabc1") = true /\
  extract_product_id 900 (link_of "https" "s.click.aliexpress.com" "e/_DmOabc1") = None /\
  process_aliexpress_link (fun _ => "?") (fun _ => "?")
    (get_product_details sample_json_loads sample_float_of_str (fun _ => None)
       900 sample_exchange (link_of "https" "s.click.aliexpress.com" "e/_DmOabc1"))
    (JStr "https://s.click.aliexpress.com/e/_DmOabc1")
  = ProductNotFound.
Proof.
  apply (short_link_not_found sample_json_loads sample_float_of_str (fun _ => None)
           (fun _ => "?") (fun _ => "?") 900 sample_exchange
           (JStr "https://s.click.aliexpress.com/e/_DmOabc1") "https" "e/_DmOabc1").
  - by right.
  - discriminate.
  - vm_compute. reflexivity.
  - vm_compute. reflexivity.
Defined.

(** ** A write that fails *)

Module FlushFacts.

(** Before the hundredth call there are no files. *)
Lemma files_before_flush (calls : list logging) :
  (length calls < 100)%nat ->
  files (log_user_actions calls empty_analytics) = no_files.
Proof.
  induction calls as [|call calls IH] using rev_ind; intros Hlen; [reflexivity |].
  rewrite length_app in Hlen. cbn [length] in Hlen.
  rewrite RestartFacts.no_flush; [apply IH; lia |].
  rewrite Nat.mod_small by lia. lia.
Qed.

End FlushFacts.

(** X17.  The three files are not written as one.  If at the first
    flush, the hundredth call, the first file is written and the write of
    the second raises, a process that starts with the files has the
    hundred events in its log and no counts: its tables do not agree, and
    its statistics show no request. *)
Theorem partial_flush_disagrees (calls : list logging) (call : logging) (now : Z) :
  length calls = 99%nat -> log_written call = 1%nat ->
  let st := start_process 3
              (files (log_user_actions (calls ++ [call])%list empty_analytics)) in
  user_actions st = event_of <$> (calls ++ [call])%list /\
  action_counts st = ∅ /\
  total_requests (get_statistics now st) = 0%Z /\
  ~ tables_agree st.
Proof.
  intros Hlen Hwritten.
  assert (files (log_user_actions (calls ++ [call])%list empty_analytics)
          = {| user_actions_json := Some (event_of <$> (calls ++ [call])%list);
               action_counts_json := None; user_last_active_json := None |}) as Hfiles.
  { rewrite RestartFacts.run_snoc. unfold log_user_action. cbv zeta.
    cbn [user_actions]. rewrite length_app, RestartFacts.run_length, Hlen.
    cbn [length Nat.add Nat.modulo Nat.divmod Nat.eqb snd Nat.sub].
    unfold save_analytics_to_file. rewrite Hwritten. cbn.
    rewrite FlushFacts.files_before_flush by lia.
    rewrite log_user_actions_events. cbn. by rewrite fmap_app. }
  cbv zeta. rewrite Hfiles.
  unfold start_process, load_analytics_from_file. cbn.
  split; [done |]. split; [done |]. split; [done |].
  intros [Hcount _]. specialize (Hcount (log_action call)).
  cbn in Hcount. rewrite lookup_empty in Hcount.
  unfold events_of_action in Hcount. rewrite fmap_app, filter_app in Hcount.
  cbn in Hcount. destruct (decide (log_action call = log_action call)); [|done].
  rewrite length_app in Hcount. cbn in Hcount. lia.
Qed.

Lemma partial_flush_disagrees_witness :
  ~ tables_agree
      (start_process 3
         (files (log_user_actions
                   (replicate 99 sample_call ++
                    [{| log_user := 7; log_action := "message_received";
                        log_time := 1700000100; log_written := 1 |}])%list
                   empty_analytics))).
Proof.
  apply (partial_flush_disagrees (replicate 99 sample_call)
           {| log_user := 7; log_action := "message_received";
              log_time := 1700000100; log_written := 1 |} 0).
  - apply length_replicate.
  - reflexivity.
Defined.
